(** * NexusChat client: feed synchronisation, groups and sign-up

    A shallow embedding of the chat client's page logic
    ([src/pages/ChatsPage.tsx] and the sign-up page [AuthPage]) together
    with the properties stated for it.

    Conventions of the embedding.
    - A JavaScript string is a [string]; one [ascii] stands for one UTF-16
      code unit, so [String.length] is [.length] on the ASCII range.
    - Firestore integers (timestamp seconds and nanoseconds, clock values)
      are [Z].
    - React state is a record; each [setX] call is a record update, and a
      functional update [setX(prev => ...)] reads the state current at the
      time the call runs.
    - An [async] handler is split at its [await] on a fetch: the part before
      it ([_begin]) and the part after it ([_resume]), so that the states in
      which a request is in flight are states of the model.
    - The hosted backend (document store and auth provider) is an explicit
      value threaded through every call; calls that the SDK can reject
      return in a small state-and-exception monad.
    - Random choices (document ids, user ids, [Math.random()]) and clock
      readings are inputs of the handlers. *)

From Stdlib Require Import ZArith Ascii String.
From stdpp Require Import gmap strings list sorting.

Local Open Scope string_scope.
Local Open Scope Z_scope.
Local Open Scope list_scope.

(** ** JavaScript string primitives *)

Module JS.

Definition is_lower (c : ascii) : bool :=
  let n := N_of_ascii c in ((97 <=? n) && (n <=? 122))%N.

Definition is_upper (c : ascii) : bool :=
  let n := N_of_ascii c in ((65 <=? n) && (n <=? 90))%N.

Definition is_digit (c : ascii) : bool :=
  let n := N_of_ascii c in ((48 <=? n) && (n <=? 57))%N.

Definition upper_char (c : ascii) : ascii :=
  if is_lower c then ascii_of_N (N_of_ascii c - 32) else c.

Definition lower_char (c : ascii) : ascii :=
  if is_upper c then ascii_of_N (N_of_ascii c + 32) else c.

Fixpoint map_chars (f : ascii -> ascii) (s : string) : string :=
  match s with
  | EmptyString => EmptyString
  | String c s' => String (f c) (map_chars f s')
  end.

(** [s.toUpperCase()] and [s.toLowerCase()]. *)
Definition toUpperCase : string -> string := map_chars upper_char.
Definition toLowerCase : string -> string := map_chars lower_char.

(** White space removed by [trim()], on the ASCII range. *)
Definition is_space (c : ascii) : bool :=
  match N_of_ascii c with
  | 9 | 10 | 11 | 12 | 13 | 32 => true
  | _ => false
  end%N.

Fixpoint trimStart (s : string) : string :=
  match s with
  | EmptyString => EmptyString
  | String c s' => if is_space c then trimStart s' else s
  end.

Definition trimEnd (s : string) : string :=
  String.rev (trimStart (String.rev s)).

(** [s.trim()]. *)
Definition trim (s : string) : string := trimEnd (trimStart s).

(** [s.substring(a, b)] for non-negative indices: the code units from
    [min a b] up to, not including, [max a b], cut at the end of [s]. *)
Definition substring (a b : nat) (s : string) : string :=
  String.substring (Nat.min a b) (Nat.max a b - Nat.min a b) s.

(** Truthiness of a string: [!s] holds exactly for the empty string. *)
Definition truthy (s : string) : bool :=
  match s with EmptyString => false | _ => true end.

(** Every code unit of [s] satisfies [p]. *)
Fixpoint all_chars (p : ascii -> bool) (s : string) : bool :=
  match s with
  | EmptyString => true
  | String c s' => p c && all_chars p s'
  end.

End JS.

(** ** Stable sorting, as [Array.prototype.sort] and [orderBy] need it *)

Section Sorting.
Context {A : Type} (leb : A -> A -> bool).

(** Insertion before the first element that [x] does not exceed: equal
    elements keep their relative order. *)
Fixpoint insert_by (x : A) (l : list A) : list A :=
  match l with
  | [] => [x]
  | y :: l' => if leb x y then x :: l else y :: insert_by x l'
  end.

Definition sort_by (l : list A) : list A := foldr insert_by [] l.

End Sorting.

(** ** Documents *)

(** A Firestore timestamp. *)
Record Timestamp := mkTimestamp { seconds : Z; nanoseconds : Z }.

(** [interface Message]. [msg_timestamp] is [None] while the server timestamp
    of a local write is still pending (the SDK then reports [null]);
    [msg_createdAt] is the client clock reading, in milliseconds, that
    [new Date().toISOString()] denotes. A document snapshot and the object
    [{id: doc.id, ...doc.data()}] built from it carry the same data and are
    both values of this type. *)
Record Message := mkMessage {
  msg_id : string;
  msg_content : string;
  msg_senderId : string;
  msg_senderName : string;
  msg_timestamp : option Timestamp;
  msg_groupId : string;
  msg_createdAt : option Z
}.

(** [interface Group]. *)
Record Group := mkGroup {
  grp_id : string;
  grp_name : string;
  grp_description : string;
  grp_createdBy : string;
  grp_createdAt : Z;
  grp_members : list string;
  grp_inviteCode : option string
}.

(** [interface User] of [types/user.ts]: a profile document, stored under
    the user id. *)
Record User := mkUser {
  usr_email : string;
  usr_username : string;
  usr_emailVerified : bool;
  usr_createdAt : Z;
  usr_updatedAt : Z;
  usr_lastLoginAt : Z;
  usr_verifiedAt : option Z
}.

(** [interface Username]: a reservation, stored under the lower-cased name. *)
Record Username := mkUsername { un_uid : string }.

#[global] Instance Timestamp_eq_dec : EqDecision Timestamp.
Proof. solve_decision. Defined.
#[global] Instance Message_eq_dec : EqDecision Message.
Proof. solve_decision. Defined.
#[global] Instance Group_eq_dec : EqDecision Group.
Proof. solve_decision. Defined.

(** ** The hosted backend *)

Module Firestore.

(** Order of timestamp values. *)
Definition ts_compare (a b : Timestamp) : comparison :=
  match seconds a ?= seconds b with
  | Eq => nanoseconds a ?= nanoseconds b
  | c => c
  end.

(** Order of a field that may hold [null]: [null] sorts before every
    timestamp. *)
Definition field_compare (a b : option Timestamp) : comparison :=
  match a, b with
  | None, None => Eq
  | None, Some _ => Lt
  | Some _, None => Gt
  | Some x, Some y => ts_compare x y
  end.

(** Position of a document under [orderBy('timestamp')]: the field value,
    then the document name. *)
Definition doc_compare (a b : Message) : comparison :=
  match field_compare (msg_timestamp a) (msg_timestamp b) with
  | Eq => String.compare (msg_id a) (msg_id b)
  | c => c
  end.

(** [a] comes at or before [b] under [orderBy('timestamp', 'desc')]. *)
Definition desc_leb (a b : Message) : bool :=
  match doc_compare a b with Lt => false | _ => true end.

(** [a] comes strictly after the cursor document [c] under
    [orderBy('timestamp', 'desc')]: it is strictly older. *)
Definition strictly_after (c a : Message) : bool :=
  match doc_compare a c with Lt => true | _ => false end.

(** The message queries the page builds:
    [where('groupId', '==', g), orderBy('timestamp', 'desc'),
     startAfter(cursor)?, limit(n)]. *)
Record Query := mkQuery {
  q_groupId : string;
  q_startAfter : option Message;
  q_limit : nat
}.

#[global] Instance Query_eq_dec : EqDecision Query.
Proof. solve_decision. Defined.

Definition in_group (g : string) (m : Message) : bool :=
  bool_decide (msg_groupId m = g).

(** Documents a query selects from the [messages] collection. *)
Definition runQuery (q : Query) (col : list Message) : list Message :=
  let ordered := sort_by desc_leb (List.filter (in_group (q_groupId q)) col) in
  let rest :=
    match q_startAfter q with
    | Some c => List.filter (strictly_after c) ordered
    | None => ordered
    end in
  take (q_limit q) rest.

(** An account of the auth provider. *)
Record Account := mkAccount {
  acc_uid : string;
  acc_email : string;
  acc_password : string;
  acc_displayName : option string;
  acc_emailVerified : bool
}.

(** Calls made to the backend, in the order they are issued. *)
Inductive Call :=
  | CGetDocs (q : Query)
  | CGetGroupsByCode (code : string)
  | CAddMessage (id : string)
  | CAddGroup (id : string)
  | CUpdateGroup (id : string)
  | CGetUsername (key : string)
  | CSetUser (uid : string)
  | CSetUsername (key : string)
  | CUpdateUser (uid : string)
  | CCreateAccount (email : string)
  | CSignIn (email : string)
  | CUpdateProfile (uid : string)
  | CSendVerification (uid : string)
  | CSendPasswordReset (email : string).

#[global] Instance Call_eq_dec : EqDecision Call.
Proof. solve_decision. Defined.

(** The backend: whether it can be reached, the auth provider's accounts
    and signed-in user, the four collections, and the calls issued so far.
    [users] and [usernames] are only read and written by key; [groups] and
    [messages] are queried, and are kept as lists of documents. *)
Record Backend := mkBackend {
  reachable : bool;
  accounts : list Account;
  currentUser : option string;
  users : gmap string User;
  usernames : gmap string Username;
  groups_col : list Group;
  messages_col : list Message;
  calls : list Call
}.

Definition set_accounts (v : list Account) (b : Backend) : Backend :=
  mkBackend (reachable b) v (currentUser b) (users b) (usernames b)
            (groups_col b) (messages_col b) (calls b).
Definition set_currentUser (v : option string) (b : Backend) : Backend :=
  mkBackend (reachable b) (accounts b) v (users b) (usernames b)
            (groups_col b) (messages_col b) (calls b).
Definition set_users (v : gmap string User) (b : Backend) : Backend :=
  mkBackend (reachable b) (accounts b) (currentUser b) v (usernames b)
            (groups_col b) (messages_col b) (calls b).
Definition set_usernames (v : gmap string Username) (b : Backend) : Backend :=
  mkBackend (reachable b) (accounts b) (currentUser b) (users b) v
            (groups_col b) (messages_col b) (calls b).
Definition set_groups_col (v : list Group) (b : Backend) : Backend :=
  mkBackend (reachable b) (accounts b) (currentUser b) (users b) (usernames b)
            v (messages_col b) (calls b).
Definition set_messages_col (v : list Message) (b : Backend) : Backend :=
  mkBackend (reachable b) (accounts b) (currentUser b) (users b) (usernames b)
            (groups_col b) v (calls b).
Definition record_call (c : Call) (b : Backend) : Backend :=
  mkBackend (reachable b) (accounts b) (currentUser b) (users b) (usernames b)
            (groups_col b) (messages_col b) (calls b ++ [c]).

(** What a rejected call throws: a [FirebaseError] or [Error], with its
    [code] and [message]. *)
Record Exn := mkExn { exn_code : string; exn_message : string }.

Definition unavailable : Exn := mkExn "unavailable" "The service is currently unavailable.".

(** A backend call: it may change the backend, and returns or throws. What
    was written before a throw stays written. *)
Definition Async (A : Type) : Type := Backend -> Backend * (Exn + A).

Definition ret {A} (x : A) : Async A := fun b => (b, inr x).
Definition throw {A} (e : Exn) : Async A := fun b => (b, inl e).
Definition bind {A B} (m : Async A) (k : A -> Async B) : Async B :=
  fun b =>
    match m b with
    | (b', inl e) => (b', inl e)
    | (b', inr x) => k x b'
    end.

(** Every call is recorded when issued and rejected when the backend
    cannot be reached. *)
Definition call {A} (c : Call) (body : Async A) : Async A :=
  fun b =>
    let b := record_call c b in
    if reachable b then body b else (b, inl unavailable).

End Firestore.

Import Firestore.

Declare Scope async_scope.
Delimit Scope async_scope with async.
Notation "x <- m ;; k" := (bind m (fun x => k))
  (at level 100, m at next level, right associativity) : async_scope.
Notation "m ;;; k" := (bind m (fun _ => k))
  (at level 100, right associativity) : async_scope.

(** ** Primitive calls of the SDK *)

Module SDK.

Local Open Scope async_scope.

(** [getDocs(query(collection(db, 'messages'), ...))]. *)
Definition getDocs (q : Query) : Async (list Message) :=
  call (CGetDocs q) (fun b => (b, inr (runQuery q (messages_col b)))).

(** [addDoc(collection(db, 'messages'), data)], the new document named
    [id] and stamped by the server with [t]. *)
Definition addMessage (id : string) (t : Timestamp) (data : Message) : Async string :=
  call (CAddMessage id) (fun b =>
    let d := mkMessage id (msg_content data) (msg_senderId data)
               (msg_senderName data) (Some t) (msg_groupId data)
               (msg_createdAt data) in
    (set_messages_col (messages_col b ++ [d]) b, inr id)).

(** [addDoc(collection(db, 'groups'), data)]. *)
Definition addGroup (id : string) (t : Z) (data : Group) : Async string :=
  call (CAddGroup id) (fun b =>
    let d := mkGroup id (grp_name data) (grp_description data)
               (grp_createdBy data) t (grp_members data) (grp_inviteCode data) in
    (set_groups_col (groups_col b ++ [d]) b, inr id)).

(** [updateDoc(doc(db, 'groups', id), fields)]: rejected when the document
    does not exist. *)
Definition updateGroup (id : string) (f : Group -> Group) : Async unit :=
  call (CUpdateGroup id) (fun b =>
    if existsb (fun g => bool_decide (grp_id g = id)) (groups_col b)
    then (set_groups_col
            (map (fun g => if bool_decide (grp_id g = id) then f g else g)
                 (groups_col b)) b, inr tt)
    else (b, inl (mkExn "not-found" "No document to update"))).

Definition by_name (a b : Group) : bool := String.leb (grp_id a) (grp_id b).

Definition has_code (code : string) (g : Group) : bool :=
  bool_decide (grp_inviteCode g = Some code).

(** [getDocs(query(collection(db, 'groups'), where('inviteCode', '==', code)))]:
    the matching documents, in document-name order. *)
Definition getGroupsByCode (code : string) : Async (list Group) :=
  call (CGetGroupsByCode code) (fun b =>
    (b, inr (sort_by by_name (List.filter (has_code code) (groups_col b))))).

(** [arrayUnion(x)] applied to an array field. *)
Definition arrayUnion (x : string) (l : list string) : list string :=
  if bool_decide (x ∈ l) then l else l ++ [x].

(** [getDoc(doc(db, 'usernames', key))], reduced to [.exists()]. *)
Definition usernameExists (key : string) : Async bool :=
  call (CGetUsername key) (fun b => (b, inr (bool_decide (is_Some (usernames b !! key))))).

(** [setDoc(doc(db, 'users', uid), data)]: creates or overwrites. *)
Definition setUser (uid : string) (data : User) : Async unit :=
  call (CSetUser uid) (fun b => (set_users (<[uid := data]> (users b)) b, inr tt)).

(** [setDoc(doc(db, 'usernames', key), data)]: creates or overwrites. *)
Definition setUsername (key : string) (data : Username) : Async unit :=
  call (CSetUsername key) (fun b => (set_usernames (<[key := data]> (usernames b)) b, inr tt)).

(** [updateDoc(doc(db, 'users', uid), {lastLoginAt})]. *)
Definition updateUserLastLogin (uid : string) (t : Z) : Async unit :=
  call (CUpdateUser uid) (fun b =>
    match users b !! uid with
    | Some u =>
        (set_users (<[uid := mkUser (usr_email u) (usr_username u)
                                (usr_emailVerified u) (usr_createdAt u)
                                (usr_updatedAt u) t (usr_verifiedAt u)]> (users b)) b,
         inr tt)
    | None => (b, inl (mkExn "not-found" "No document to update"))
    end).

Definition has_email (email : string) (a : Account) : bool :=
  bool_decide (acc_email a = email).

(** [createUserWithEmailAndPassword(auth, email, password)], the provider
    naming the new account [uid]: rejected for an email already registered
    and for a password the provider finds too short; on success the new
    user is signed in. *)
Definition createUserWithEmailAndPassword (uid email password : string) : Async string :=
  call (CCreateAccount email) (fun b =>
    if existsb (has_email email) (accounts b)
    then (b, inl (mkExn "auth/email-already-in-use" "Firebase: Error (auth/email-already-in-use)."))
    else if (String.length password <? 6)%nat
    then (b, inl (mkExn "auth/weak-password" "Firebase: Error (auth/weak-password)."))
    else (set_currentUser (Some uid)
            (set_accounts (accounts b ++ [mkAccount uid email password None false]) b),
          inr uid)).

(** [signInWithEmailAndPassword(auth, email, password)], returning the
    account. *)
Definition signInWithEmailAndPassword (email password : string) : Async Account :=
  call (CSignIn email) (fun b =>
    match List.find (has_email email) (accounts b) with
    | None => (b, inl (mkExn "auth/user-not-found" "Firebase: Error (auth/user-not-found)."))
    | Some a =>
        if bool_decide (acc_password a = password)
        then (set_currentUser (Some (acc_uid a)) b, inr a)
        else (b, inl (mkExn "auth/wrong-password" "Firebase: Error (auth/wrong-password)."))
    end).

(** [updateProfile(user, {displayName})]. *)
Definition updateProfile (uid displayName : string) : Async unit :=
  call (CUpdateProfile uid) (fun b =>
    (set_accounts
       (map (fun a => if bool_decide (acc_uid a = uid)
                      then mkAccount (acc_uid a) (acc_email a) (acc_password a)
                             (Some displayName) (acc_emailVerified a)
                      else a) (accounts b)) b, inr tt)).

(** [sendEmailVerification(user)] and [sendPasswordResetEmail(auth, email)]
    change nothing the client can read back. *)
Definition sendEmailVerification (uid : string) : Async unit :=
  call (CSendVerification uid) (fun b => (b, inr tt)).

Definition sendPasswordResetEmail (email : string) : Async unit :=
  call (CSendPasswordReset email) (fun b => (b, inr tt)).

End SDK.

(** ** The chat page *)

Module ChatsPage.

Import SDK.

Record UserData := mkUserData {
  ud_username : string;
  ud_email : string;
  ud_emailVerified : bool
}.

(** The [useState] cells of the component. [messageListener] holds the
    identity of the listener whose detaching function is stored, if one
    is. *)
Record State := mkState {
  messageListener : option nat;
  messages : list Message;
  groups : list Group;
  userData : option UserData;
  selectedGroup : option Group;
  showCreateGroup : bool;
  newGroupName : string;
  newGroupDescription : string;
  creatingGroup : bool;
  newMessage : string;
  showInviteModal : bool;
  showJoinModal : bool;
  inviteCode : string;
  joining : bool;
  lastMessageRef : option Message;
  hasMoreMessages : bool;
  isLoadingMore : bool
}.

(** State on mount. *)
Definition initial : State :=
  mkState None [] [] None None false "" "" false "" false false "" false None true false.

Definition setMessageListener v s :=
  mkState v (messages s) (groups s) (userData s) (selectedGroup s)
    (showCreateGroup s) (newGroupName s) (newGroupDescription s) (creatingGroup s)
    (newMessage s) (showInviteModal s) (showJoinModal s) (inviteCode s) (joining s)
    (lastMessageRef s) (hasMoreMessages s) (isLoadingMore s).
Definition setMessages v s :=
  mkState (messageListener s) v (groups s) (userData s) (selectedGroup s)
    (showCreateGroup s) (newGroupName s) (newGroupDescription s) (creatingGroup s)
    (newMessage s) (showInviteModal s) (showJoinModal s) (inviteCode s) (joining s)
    (lastMessageRef s) (hasMoreMessages s) (isLoadingMore s).
Definition setGroups v s :=
  mkState (messageListener s) (messages s) v (userData s) (selectedGroup s)
    (showCreateGroup s) (newGroupName s) (newGroupDescription s) (creatingGroup s)
    (newMessage s) (showInviteModal s) (showJoinModal s) (inviteCode s) (joining s)
    (lastMessageRef s) (hasMoreMessages s) (isLoadingMore s).
Definition setSelectedGroup v s :=
  mkState (messageListener s) (messages s) (groups s) (userData s) v
    (showCreateGroup s) (newGroupName s) (newGroupDescription s) (creatingGroup s)
    (newMessage s) (showInviteModal s) (showJoinModal s) (inviteCode s) (joining s)
    (lastMessageRef s) (hasMoreMessages s) (isLoadingMore s).
Definition setShowCreateGroup v s :=
  mkState (messageListener s) (messages s) (groups s) (userData s) (selectedGroup s)
    v (newGroupName s) (newGroupDescription s) (creatingGroup s)
    (newMessage s) (showInviteModal s) (showJoinModal s) (inviteCode s) (joining s)
    (lastMessageRef s) (hasMoreMessages s) (isLoadingMore s).
Definition setNewGroupName v s :=
  mkState (messageListener s) (messages s) (groups s) (userData s) (selectedGroup s)
    (showCreateGroup s) v (newGroupDescription s) (creatingGroup s)
    (newMessage s) (showInviteModal s) (showJoinModal s) (inviteCode s) (joining s)
    (lastMessageRef s) (hasMoreMessages s) (isLoadingMore s).
Definition setNewGroupDescription v s :=
  mkState (messageListener s) (messages s) (groups s) (userData s) (selectedGroup s)
    (showCreateGroup s) (newGroupName s) v (creatingGroup s)
    (newMessage s) (showInviteModal s) (showJoinModal s) (inviteCode s) (joining s)
    (lastMessageRef s) (hasMoreMessages s) (isLoadingMore s).
Definition setCreatingGroup v s :=
  mkState (messageListener s) (messages s) (groups s) (userData s) (selectedGroup s)
    (showCreateGroup s) (newGroupName s) (newGroupDescription s) v
    (newMessage s) (showInviteModal s) (showJoinModal s) (inviteCode s) (joining s)
    (lastMessageRef s) (hasMoreMessages s) (isLoadingMore s).
Definition setNewMessage v s :=
  mkState (messageListener s) (messages s) (groups s) (userData s) (selectedGroup s)
    (showCreateGroup s) (newGroupName s) (newGroupDescription s) (creatingGroup s)
    v (showInviteModal s) (showJoinModal s) (inviteCode s) (joining s)
    (lastMessageRef s) (hasMoreMessages s) (isLoadingMore s).
Definition setShowInviteModal v s :=
  mkState (messageListener s) (messages s) (groups s) (userData s) (selectedGroup s)
    (showCreateGroup s) (newGroupName s) (newGroupDescription s) (creatingGroup s)
    (newMessage s) v (showJoinModal s) (inviteCode s) (joining s)
    (lastMessageRef s) (hasMoreMessages s) (isLoadingMore s).
Definition setShowJoinModal v s :=
  mkState (messageListener s) (messages s) (groups s) (userData s) (selectedGroup s)
    (showCreateGroup s) (newGroupName s) (newGroupDescription s) (creatingGroup s)
    (newMessage s) (showInviteModal s) v (inviteCode s) (joining s)
    (lastMessageRef s) (hasMoreMessages s) (isLoadingMore s).
Definition setInviteCode v s :=
  mkState (messageListener s) (messages s) (groups s) (userData s) (selectedGroup s)
    (showCreateGroup s) (newGroupName s) (newGroupDescription s) (creatingGroup s)
    (newMessage s) (showInviteModal s) (showJoinModal s) v (joining s)
    (lastMessageRef s) (hasMoreMessages s) (isLoadingMore s).
Definition setJoining v s :=
  mkState (messageListener s) (messages s) (groups s) (userData s) (selectedGroup s)
    (showCreateGroup s) (newGroupName s) (newGroupDescription s) (creatingGroup s)
    (newMessage s) (showInviteModal s) (showJoinModal s) (inviteCode s) v
    (lastMessageRef s) (hasMoreMessages s) (isLoadingMore s).
Definition setLastMessageRef v s :=
  mkState (messageListener s) (messages s) (groups s) (userData s) (selectedGroup s)
    (showCreateGroup s) (newGroupName s) (newGroupDescription s) (creatingGroup s)
    (newMessage s) (showInviteModal s) (showJoinModal s) (inviteCode s) (joining s)
    v (hasMoreMessages s) (isLoadingMore s).
Definition setHasMoreMessages v s :=
  mkState (messageListener s) (messages s) (groups s) (userData s) (selectedGroup s)
    (showCreateGroup s) (newGroupName s) (newGroupDescription s) (creatingGroup s)
    (newMessage s) (showInviteModal s) (showJoinModal s) (inviteCode s) (joining s)
    (lastMessageRef s) v (isLoadingMore s).
Definition setIsLoadingMore v s :=
  mkState (messageListener s) (messages s) (groups s) (userData s) (selectedGroup s)
    (showCreateGroup s) (newGroupName s) (newGroupDescription s) (creatingGroup s)
    (newMessage s) (showInviteModal s) (showJoinModal s) (inviteCode s) (joining s)
    (lastMessageRef s) (hasMoreMessages s) v.

(** An [onSnapshot] subscription opened by [handleGroupSelect]: its
    identity and the group its query is scoped to. *)
Record Listener := mkListener { lst_id : nat; lst_groupId : string }.

(** The mounted page: component state, the backend, the subscriptions of
    [handleGroupSelect] that are attached, the next listener identity, and
    the messages shown by [alert]. *)
Record Page := mkPage {
  ui : State;
  backend : Backend;
  listeners : list Listener;
  next_listener : nat;
  alerts : list string
}.

Definition with_ui (f : State -> State) (p : Page) : Page :=
  mkPage (f (ui p)) (backend p) (listeners p) (next_listener p) (alerts p).
Definition with_backend (b : Backend) (p : Page) : Page :=
  mkPage (ui p) b (listeners p) (next_listener p) (alerts p).
Definition alert (msg : string) (p : Page) : Page :=
  mkPage (ui p) (backend p) (listeners p) (next_listener p) (alerts p ++ [msg]).

(** Calling the function [onSnapshot] returned for listener [l]. *)
Definition detach (l : nat) (p : Page) : Page :=
  mkPage (ui p) (backend p)
    (List.filter (fun x => negb (Nat.eqb (lst_id x) l)) (listeners p))
    (next_listener p) (alerts p).

(** [onSnapshot(query, callback)] for the newest message of group [g]. *)
Definition attach (g : string) (p : Page) : Page :=
  mkPage (ui p) (backend p)
    (listeners p ++ [mkListener (next_listener p) g])
    (S (next_listener p)) (alerts p).

Definition MESSAGES_PER_PAGE : nat := 25.

(** The query of [loadMessages(groupId, lastRef)]: with [startAfter] only
    when [lastRef] is given. *)
Definition messagesQuery (groupId : string) (lastRef : option Message) : Query :=
  mkQuery groupId lastRef MESSAGES_PER_PAGE.

(** [snapshot.docs[snapshot.docs.length - 1]], when there is one. *)
Definition lastDoc (docs : list Message) : option Message := last docs.

(** [loadMessages], after [await getDocs(messagesQuery)]; [r] is what the
    fetch returned or threw. *)
Definition loadMessages_resume (lastRef : option Message)
    (r : Exn + list Message) (s : State) : State :=
  match r with
  | inl _ => s
  | inr docs =>
      let s := setHasMoreMessages (Nat.eqb (length docs) MESSAGES_PER_PAGE) s in
      let s :=
        match lastRef with
        | Some _ => setMessages (messages s ++ docs) s
        | None => setMessages docs s
        end in
      match lastDoc docs with
      | Some d => setLastMessageRef (Some d) s
      | None => s
      end
  end.

(** [loadMoreMessages], up to its [await]: the guard, the in-flight flag,
    and the arguments [loadMessages] is called with. *)
Definition loadMoreMessages_begin (s : State) : State * option (string * option Message) :=
  match selectedGroup s with
  | None => (s, None)
  | Some g =>
      if negb (hasMoreMessages s) || isLoadingMore s then (s, None)
      else (setIsLoadingMore true s, Some (grp_id g, lastMessageRef s))
  end.

(** [loadMoreMessages], once the fetch has settled. *)
Definition loadMoreMessages_resume (lastRef : option Message)
    (r : Exn + list Message) (s : State) : State :=
  setIsLoadingMore false (loadMessages_resume lastRef r s).

(** [loadMoreMessages] with the fetch answered at once. *)
Definition loadMoreMessages (p : Page) : Page :=
  match loadMoreMessages_begin (ui p) with
  | (_, None) => p
  | (s, Some (g, lastRef)) =>
      let '(b, r) := getDocs (messagesQuery g lastRef) (backend p) in
      with_ui (loadMoreMessages_resume lastRef r) (with_backend b (with_ui (fun _ => s) p))
  end.

(** [handleGroupSelect], up to [await getDocs(initialQuery)]: the feed is
    reset and the stored listener, if any, is detached. *)
Definition handleGroupSelect_begin (group : Group) (p : Page) : Page :=
  let stored := messageListener (ui p) in
  let p := with_ui (fun s =>
             setHasMoreMessages true (setLastMessageRef None (setNewMessage ""
               (setMessages [] (setSelectedGroup (Some group) s))))) p in
  match stored with
  | Some l => with_ui (setMessageListener None) (detach l p)
  | None => p
  end.

(** [handleGroupSelect], once the initial fetch has settled: the first
    page is stored as fetched, the cursor is its last document, and a
    listener on the newest message of the group is attached. The function
    detaching it is the handler's return value. *)
Definition handleGroupSelect_resume (group : Group)
    (r : Exn + list Message) (p : Page) : Page :=
  match r with
  | inl _ => p
  | inr docs =>
      let p := with_ui (fun s =>
                 let s := setHasMoreMessages (Nat.eqb (length docs) MESSAGES_PER_PAGE) s in
                 let s := setMessages docs s in
                 match lastDoc docs with
                 | Some d => setLastMessageRef (Some d) s
                 | None => s
                 end) p in
      attach (grp_id group) p
  end.

(** [handleGroupSelect] with the fetch answered at once. *)
Definition handleGroupSelect (group : Group) (p : Page) : Page :=
  let p := handleGroupSelect_begin group p in
  let '(b, r) := getDocs (messagesQuery (grp_id group) None) (backend p) in
  handleGroupSelect_resume group r (with_backend b p).

(** Changes a snapshot reports. *)
Inductive ChangeType := added | modified | removed.

Record DocChange := mkChange { change_type : ChangeType; change_doc : Message }.

(** The update function passed to [setMessages] for an added document. *)
Definition mergeAdded (newMessage : Message) (prev : list Message) : list Message :=
  match List.find (fun m => bool_decide (msg_id m = msg_id newMessage)) prev with
  | None => newMessage :: prev
  | Some _ => prev
  end.

(** The callback of the listener attached by [handleGroupSelect]. *)
Definition onChanges (changes : list DocChange) (s : State) : State :=
  foldl (fun s c =>
           match change_type c with
           | added => setMessages (mergeAdded (change_doc c) (messages s)) s
           | _ => s
           end) s changes.

(** Listener [l] reporting [changes]: its callback runs if it is attached
    and the changed documents match its query. *)
Definition deliver (l : nat) (changes : list DocChange) (p : Page) : Page :=
  match List.find (fun x => Nat.eqb (lst_id x) l) (listeners p) with
  | Some x =>
      if forallb (fun c => in_group (lst_groupId x) (change_doc c)) changes
      then with_ui (onChanges changes) p
      else p
  | None => p
  end.

(** [a.timestamp?.seconds || 0]. *)
Definition time_of (m : Message) : Z :=
  match msg_timestamp m with
  | Some t => seconds t
  | None => 0
  end.

(** The comparator [timeA - timeB] places [a] no later than [b]. *)
Definition by_seconds (a b : Message) : bool := (time_of a - time_of b <=? 0).

(** The callback of the listener the [selectedGroup?.id] effect keeps on
    the 25 newest messages of the selected group. *)
Definition onMessagesSnapshot (docs : list Message) (s : State) : State :=
  setMessages (sort_by by_seconds docs) s.

(** The snapshot that listener reports for the backend as it stands. *)
Definition effectSnapshot (p : Page) : list Message :=
  match selectedGroup (ui p) with
  | Some g => runQuery (mkQuery (grp_id g) None 25) (messages_col (backend p))
  | None => []
  end.

(** [handleSendMessage]: the new document is named [newId], stamped [t] by
    the server, and carries the client clock reading [now] as fallback. *)
Definition handleSendMessage (newId : string) (t : Timestamp) (now : Z) (p : Page) : Page :=
  let s := ui p in
  match selectedGroup s, userData s, currentUser (backend p) with
  | Some g, Some u, Some uid =>
      if JS.truthy (JS.trim (newMessage s)) then
        let messageData :=
          mkMessage "" (JS.trim (newMessage s)) uid (ud_username u) None
                    (grp_id g) (Some now) in
        let '(b, r) := addMessage newId t messageData (backend p) in
        let p := with_backend b p in
        match r with
        | inr _ => with_ui (setNewMessage "") p
        | inl _ => p
        end
      else p
  | _, _, _ => p
  end.

(** [handleCreateGroup]: the new document is named [newId] and stamped
    [t] by the server; [now] is the client clock. *)
Definition handleCreateGroup (newId : string) (t now : Z) (p : Page) : Page :=
  let s := ui p in
  match currentUser (backend p) with
  | Some uid =>
      if JS.truthy (JS.trim (newGroupName s)) then
        let p := with_ui (setCreatingGroup true) p in
        let newGroupData :=
          mkGroup "" (JS.trim (newGroupName s)) (JS.trim (newGroupDescription s))
                  uid t [uid] None in
        let '(b, r) := addGroup newId t newGroupData (backend p) in
        let p := with_backend b p in
        let p :=
          match r with
          | inr id =>
              let newGroup :=
                mkGroup id (grp_name newGroupData) (grp_description newGroupData)
                        (grp_createdBy newGroupData) now (grp_members newGroupData)
                        (grp_inviteCode newGroupData) in
              with_ui (fun s =>
                setSelectedGroup (Some newGroup) (setNewGroupDescription ""
                  (setNewGroupName "" (setShowCreateGroup false
                    (setGroups (newGroup :: groups s) s))))) p
          | inl _ => p
          end in
        with_ui (setCreatingGroup false) p
      else p
  | None => p
  end.

Definition setCode (code : string) (g : Group) : Group :=
  mkGroup (grp_id g) (grp_name g) (grp_description g) (grp_createdBy g)
          (grp_createdAt g) (grp_members g) (Some code).

(** The code [generateInviteCode] derives from [rnd], the text
    [Math.random().toString(36)]. *)
Definition inviteCodeOf (rnd : string) : string :=
  JS.toUpperCase (JS.substring 2 10 rnd).

(** [generateInviteCode]. *)
Definition generateInviteCode (rnd : string) (p : Page) : Page :=
  match selectedGroup (ui p) with
  | None => p
  | Some g =>
      let code := inviteCodeOf rnd in
      let '(b, r) := updateGroup (grp_id g) (setCode code) (backend p) in
      let p := with_backend b p in
      match r with
      | inr _ => with_ui (fun s => setShowInviteModal true (setInviteCode code s)) p
      | inl _ => p
      end
  end.

Definition addMember (uid : string) (g : Group) : Group :=
  mkGroup (grp_id g) (grp_name g) (grp_description g) (grp_createdBy g)
          (grp_createdAt g) (arrayUnion uid (grp_members g)) (grp_inviteCode g).

Definition invalidCode : Exn := mkExn "" "Invalid invite code".
Definition alreadyMember : Exn := mkExn "" "You are already a member of this group".

(** The [try] block of [handleJoinGroup], up to the state updates. *)
Definition joinGroup (uid code : string) : Async unit :=
  (snapshot <- getGroupsByCode (JS.toUpperCase (JS.trim code)) ;;
   match snapshot with
   | [] => throw invalidCode
   | groupDoc :: _ =>
       if bool_decide (uid ∈ grp_members groupDoc) then throw alreadyMember
       else updateGroup (grp_id groupDoc) (addMember uid)
   end)%async.

(** [handleJoinGroup]. *)
Definition handleJoinGroup (code : string) (p : Page) : Page :=
  match currentUser (backend p) with
  | Some uid =>
      if JS.truthy (JS.trim code) then
        let p := with_ui (setJoining true) p in
        let '(b, r) := joinGroup uid code (backend p) in
        let p := with_backend b p in
        let p :=
          match r with
          | inr _ => with_ui (fun s => setInviteCode "" (setShowJoinModal false s)) p
          | inl e => alert (exn_message e) p
          end in
        with_ui (setJoining false) p
      else p
  | None => p
  end.

End ChatsPage.

(** ** The sign-up and sign-in page *)

Module AuthPage.

Import SDK.

Record State := mkState {
  isSignUp : bool;
  email : string;
  password : string;
  confirmPassword : string;
  username : string;
  error : string;
  resetMode : bool;
  message : string;
  loading : bool
}.

Definition setError v s :=
  mkState (isSignUp s) (email s) (password s) (confirmPassword s) (username s)
          v (resetMode s) (message s) (loading s).
Definition setMessage v s :=
  mkState (isSignUp s) (email s) (password s) (confirmPassword s) (username s)
          (error s) (resetMode s) v (loading s).
Definition setLoading v s :=
  mkState (isSignUp s) (email s) (password s) (confirmPassword s) (username s)
          (error s) (resetMode s) (message s) v.

(** The page: form state, the backend, and the route last passed to
    [navigate]. *)
Record Page := mkPage {
  ui : State;
  backend : Backend;
  location : option string
}.

Definition with_ui (f : State -> State) (p : Page) : Page :=
  mkPage (f (ui p)) (backend p) (location p).
Definition with_backend (b : Backend) (p : Page) : Page :=
  mkPage (ui p) b (location p).
Definition navigate (route : string) (p : Page) : Page :=
  mkPage (ui p) (backend p) (Some route).

(** [createUserDocument]: the profile document, then the reservation under
    the lower-cased name; an error is logged and thrown again. *)
Definition createUserDocument (uid email username : string) (now : Z) : Async unit :=
  (setUser uid (mkUser email username false now now now None) ;;;
   setUsername (JS.toLowerCase username) (mkUsername uid))%async.

(** [checkUsername]. *)
Definition checkUsername (username : string) : Async bool :=
  usernameExists (JS.toLowerCase username).

(** [handlePasswordReset]. *)
Definition handlePasswordReset (p : Page) : Page :=
  let p := with_ui (setLoading true) p in
  let '(b, r) := sendPasswordResetEmail (email (ui p)) (backend p) in
  let p := with_backend b p in
  let p :=
    match r with
    | inr _ => with_ui (fun s => setError ""
                 (setMessage "Password reset email sent! Check your inbox." s)) p
    | inl e => with_ui (setError (exn_message e)) p
    end in
  with_ui (setLoading false) p.

(** The message the [catch] block of [handleAuth] shows. *)
Definition authErrorMessage (e : Exn) : string :=
  if bool_decide (exn_code e = "auth/email-already-in-use")
  then "This email is already registered. Please sign in instead."
  else if bool_decide (exn_code e = "auth/invalid-email")
  then "Please enter a valid email address."
  else if bool_decide (exn_code e = "auth/weak-password")
  then "Password should be at least 6 characters long."
  else if bool_decide (exn_code e = "auth/user-not-found")
          || bool_decide (exn_code e = "auth/wrong-password")
  then "Invalid email or password."
  else exn_message e.

(** How the validation of the sign-up form ends: the first failing check,
    in the order the handler makes them. *)
Definition validate (s : State) : option string :=
  if negb (bool_decide (password s = confirmPassword s))
  then Some "Passwords do not match"
  else if (String.length (password s) <? 6)%nat
  then Some "Password must be at least 6 characters long"
  else if negb (JS.truthy (username s)) || (String.length (username s) <? 3)%nat
  then Some "Username must be at least 3 characters long"
  else None.

(** The backend calls of a sign-up that passed validation. [Some msg] is
    an inline error set before returning, [None] is completion. *)
Definition signUp (newUid : string) (now : Z) (s : State) : Async (option string) :=
  (usernameExists <- checkUsername (username s) ;;
   if (usernameExists : bool) then ret (Some "Username is already taken")
   else
     uid <- createUserWithEmailAndPassword newUid (email s) (password s) ;;
     updateProfile uid (username s) ;;;
     createUserDocument uid (email s) (username s) now ;;;
     sendEmailVerification uid ;;;
     ret None)%async.

(** The backend calls of a sign-in. *)
Definition signIn (now : Z) (s : State) : Async Account :=
  (user <- signInWithEmailAndPassword (email s) (password s) ;;
   updateUserLastLogin (acc_uid user) now ;;;
   ret user)%async.

(** [handleAuth]: [newUid] names the account the provider would create,
    [now] is the client clock. *)
Definition handleAuth (newUid : string) (now : Z) (p : Page) : Page :=
  let s := ui p in
  let p := with_ui (fun s => setLoading true (setMessage "" (setError "" s))) p in
  let p :=
    if resetMode s then handlePasswordReset p
    else if isSignUp s then
      match validate s with
      | Some msg => with_ui (setError msg) p
      | None =>
          let '(b, r) := signUp newUid now s (backend p) in
          let p := with_backend b p in
          match r with
          | inr (Some msg) => with_ui (setError msg) p
          | inr None =>
              navigate "/verify-email"
                (with_ui (setMessage
                   "Account created! Please check your email for verification.") p)
          | inl e => with_ui (setError (authErrorMessage e)) p
          end
      end
    else
      let '(b, r) := signIn now s (backend p) in
      let p := with_backend b p in
      match r with
      | inr user =>
          if acc_emailVerified user then navigate "/chats" p
          else navigate "/verify-email" p
      | inl e => with_ui (setError (authErrorMessage e)) p
      end in
  with_ui (setLoading false) p.

End AuthPage.

(** ** The stated properties, in the terms of the specification *)

Module Spec.

(** The ids of a feed, in feed order. *)
Definition ids (l : list Message) : list string := msg_id <$> l.

(** Effective timestamp of a message, in nanoseconds: the server timestamp
    if present, else the client-side fallback captured at send time. *)
Definition effective_time (m : Message) : Z :=
  match msg_timestamp m, msg_createdAt m with
  | Some t, _ => seconds t * 1000000000 + nanoseconds t
  | None, Some ms => ms * 1000000
  | None, None => 0
  end.

(** A feed sorted ascending by effective timestamp. *)
Definition ascending (l : list Message) : Prop :=
  Sorted (fun a b => effective_time a <= effective_time b) l.

(** A feed sorted descending by effective timestamp, newest first. *)
Definition descending (l : list Message) : Prop :=
  Sorted (fun a b => effective_time b <= effective_time a) l.

#[global] Instance ascending_dec l : Decision (ascending l).
Proof. unfold ascending. apply _. Defined.

#[global] Instance descending_dec l : Decision (descending l).
Proof. unfold descending. apply _. Defined.

(** The groups a join by [code] resolves to: what the lookup of
    [handleJoinGroup] returns. *)
Definition resolves (code : string) (b : Backend) : list Group :=
  sort_by SDK.by_name (List.filter (SDK.has_code code) (groups_col b)).

(** The inline errors of the sign-up validation. *)
Definition validation_errors : list string :=
  ["Passwords do not match";
   "Password must be at least 6 characters long";
   "Username must be at least 3 characters long"].

(** Place of the first occurrence of a call among the calls issued. *)
Definition position (c : Call) (l : list Call) : option nat :=
  fst <$> list_find (fun x => x = c) l.

(** Call [a] was issued, and before call [b] was. *)
Definition issued_before (a b : Call) (l : list Call) : Prop :=
  match position a l, position b l with
  | Some i, Some j => (i < j)%nat
  | _, _ => False
  end.

#[global] Instance issued_before_dec a b l : Decision (issued_before a b l).
Proof. unfold issued_before. destruct (position a l), (position b l); apply _. Defined.

(** Characters of an invite code: digits and upper-case letters. *)
Definition upper_alnum (c : ascii) : bool := JS.is_digit c || JS.is_upper c.

(** Digits of a base-36 numeral as [toString(36)] writes them. *)
Definition base36_digit (c : ascii) : bool := JS.is_digit c || JS.is_lower c.

End Spec.

(** ** Sample data *)

Module Sample.

Import ChatsPage.

Fixpoint digits (fuel n : nat) (acc : string) : string :=
  match fuel with
  | O => acc
  | S fuel' =>
      let acc' := String (ascii_of_nat (48 + n mod 10)) acc in
      if Nat.ltb n 10 then acc' else digits fuel' (n / 10) acc'
  end.

(** Decimal numeral of [n]. *)
Definition numeral (n : nat) : string := digits (S n) n "".

(** Message number [n] of group [g]: server time [n] seconds, sent by the
    client at [n] seconds. *)
Definition msg (g : string) (n : nat) : Message :=
  mkMessage (g +:+ "-" +:+ numeral n) "hello" "u1" "alice"
            (Some (mkTimestamp (Z.of_nat n) 0)) g (Some (1000 * Z.of_nat n)%Z).

(** Messages [lo .. hi] of group [g], oldest first. *)
Definition msgs (g : string) (lo hi : nat) : list Message :=
  msg g <$> seq lo (S hi - lo).

(** Messages [hi .. lo] of group [g], newest first. *)
Definition msgs_desc (g : string) (hi lo : nat) : list Message :=
  reverse (msgs g lo hi).

(** A message whose server timestamp is still pending, sent at [n]
    seconds on the client clock. *)
Definition pending (g : string) (n : nat) : Message :=
  mkMessage (g +:+ "-" +:+ numeral n) "hello" "u1" "alice" None g
            (Some (1000 * Z.of_nat n)%Z).

(** A reachable backend holding [ms] and [gs], with [u1] signed in. *)
Definition server (gs : list Group) (ms : list Message) : Backend :=
  mkBackend true [] (Some "u1") ∅ ∅ gs ms [].

(** The page as mounted on backend [b]. *)
Definition mounted (b : Backend) : Page := mkPage initial b [] 0 [].

Definition grpA : Group := mkGroup "a" "Alpha" "" "u1" 0 ["u1"] None.
Definition grpB : Group := mkGroup "b" "Beta" "" "u1" 0 ["u1"] None.

(** The backend losing every message but those of [keep]. *)
Definition keep_only (keep : list Message) (p : Page) : Page :=
  with_backend (set_messages_col keep (backend p)) p.

(** Another client's message [m] reaching the store. *)
Definition arrives (m : Message) (p : Page) : Page :=
  with_backend (set_messages_col (messages_col (backend p) ++ [m]) (backend p)) p.

(** The listener of the [selectedGroup?.id] effect reporting the store as
    it stands. *)
Definition effect_fires (p : Page) : Page :=
  with_ui (onMessagesSnapshot (effectSnapshot p)) p.


Definition empty_backend : Backend := mkBackend true [] None ∅ ∅ [] [] [].


End Sample.

(** ** The chat page: the group list and the scroll sensor *)

Module ChatsEffects.

Import SDK ChatsPage.




(** The callback of the [IntersectionObserver] on the message
    container. *)
Definition onIntersect (isIntersecting : bool) (p : Page) : Page :=
  if isIntersecting && hasMoreMessages (ui p) && negb (isLoadingMore (ui p))
  then loadMoreMessages p
  else p.

End ChatsEffects.

(** ** The verification page *)

Module VerifyEmail.

Import SDK.

Record State := mkState {
  error : string;
  message : string;
  loading : bool;
  countdown : Z;
  canResend : bool
}.

(** State on mount. *)
Definition initial : State := mkState "" "" false 60 true.

Definition setError v s := mkState v (message s) (loading s) (countdown s) (canResend s).
Definition setMessage v s := mkState (error s) v (loading s) (countdown s) (canResend s).
Definition setLoading v s := mkState (error s) (message s) v (countdown s) (canResend s).
Definition setCountdown v s := mkState (error s) (message s) (loading s) v (canResend s).
Definition setCanResend v s := mkState (error s) (message s) (loading s) (countdown s) v.

(** The page: its state, the backend, the [emailVerified] flag the client
    holds for [auth.currentUser], the route last passed to [navigate], the
    route a [setTimeout] will navigate to, and whether the periodic check
    is still scheduled. *)
Record Page := mkPage {
  ui : State;
  backend : Backend;
  verified : bool;
  location : option string;
  redirect : option string;
  polling : bool
}.

Definition with_ui (f : State -> State) (p : Page) : Page :=
  mkPage (f (ui p)) (backend p) (verified p) (location p) (redirect p) (polling p).
Definition with_backend (b : Backend) (p : Page) : Page :=
  mkPage (ui p) b (verified p) (location p) (redirect p) (polling p).
Definition with_verified (v : bool) (p : Page) : Page :=
  mkPage (ui p) (backend p) v (location p) (redirect p) (polling p).
Definition navigate (route : string) (p : Page) : Page :=
  mkPage (ui p) (backend p) (verified p) (Some route) (redirect p) (polling p).
Definition navigateLater (route : string) (p : Page) : Page :=
  mkPage (ui p) (backend p) (verified p) (location p) (Some route) (polling p).
Definition clearInterval (p : Page) : Page :=
  mkPage (ui p) (backend p) (verified p) (location p) (redirect p) false.

(** The timeout of a delayed navigation firing. *)
Definition timeout_fires (p : Page) : Page :=
  match redirect p with
  | Some route => mkPage (ui p) (backend p) (verified p) (Some route) None (polling p)
  | None => p
  end.

(** [reload(user)]: the provider's current [emailVerified] flag of the
    account; rejected when the account is gone. It is not among the
    recorded calls. *)
Definition reload (uid : string) : Async bool :=
  fun b =>
    if reachable b then
      match List.find (fun a => bool_decide (acc_uid a = uid)) (accounts b) with
      | Some a => (b, inr (acc_emailVerified a))
      | None => (b, inl (mkExn "auth/user-not-found" "Firebase: Error (auth/user-not-found)."))
      end
    else (b, inl unavailable).

(** [updateDoc(doc(db, 'users', uid), {emailVerified: true, verifiedAt})]. *)
Definition updateUserVerified (uid : string) (now : Z) : Async unit :=
  call (CUpdateUser uid) (fun b =>
    match users b !! uid with
    | Some u =>
        (set_users (<[uid := mkUser (usr_email u) (usr_username u) true
                                (usr_createdAt u) (usr_updatedAt u)
                                (usr_lastLoginAt u) (Some now)]> (users b)) b,
         inr tt)
    | None => (b, inl (mkExn "not-found" "No document to update"))
    end).

(** [updateUserVerificationStatus]: an error is logged and dropped. *)
Definition updateUserVerificationStatus (uid : string) (now : Z) (p : Page) : Page :=
  with_backend (fst (updateUserVerified uid now (backend p))) p.

(** [checkVerification], the periodic check. *)
Definition checkVerification (now : Z) (p : Page) : Page :=
  match currentUser (backend p) with
  | Some uid =>
      match reload uid (backend p) with
      | (b, inr v) =>
          let p := with_verified v (with_backend b p) in
          if v then
            navigateLater "/chats"
              (updateUserVerificationStatus uid now
                 (with_ui (setMessage "Email verified! Redirecting...")
                    (clearInterval p)))
          else p
      | (b, inl _) => with_backend b p
      end
  | None => p
  end.

(** The callback given to [auth.onAuthStateChanged]; [user] is the user
    reported, with its [emailVerified] flag. *)
Definition onAuthStateChanged (user : option (string * bool)) (now : Z) (p : Page) : Page :=
  match user with
  | None => navigate "/auth" p
  | Some (uid, v) =>
      if v then navigate "/chats" (updateUserVerificationStatus uid now p)
      else p
  end.

(** The state updates of the countdown effect when it runs. *)
Definition countdownEffect (s : State) : State :=
  if negb (canResend s) && (0 <? countdown s) then s
  else if countdown s =? 0 then setCountdown 60 (setCanResend true s)
  else s.

(** One second passing: the interval of the countdown effect, when set,
    decrements the counter, and the effect runs again. *)
Definition second_passes (s : State) : State :=
  if negb (canResend s) && (0 <? countdown s)
  then countdownEffect (setCountdown (countdown s - 1) s)
  else s.

(** [handleResendVerification]. *)
Definition handleResendVerification (p : Page) : Page :=
  let p := with_ui (setLoading true) p in
  let p :=
    match currentUser (backend p) with
    | Some uid =>
        if negb (verified p) then
          match sendEmailVerification uid (backend p) with
          | (b, inr _) =>
              with_ui (fun s => setCanResend false (setError ""
                         (setMessage "Verification email resent! Please check your inbox." s)))
                (with_backend b p)
          | (b, inl _) =>
              with_ui (setError "Error sending verification email. Please try again later.")
                (with_backend b p)
          end
        else p
    | None => p
    end in
  with_ui (setLoading false) p.

(** [handleManualRefresh]. *)
Definition handleManualRefresh (now : Z) (p : Page) : Page :=
  let p := with_ui (setLoading true) p in
  let p :=
    match currentUser (backend p) with
    | Some uid =>
        match reload uid (backend p) with
        | (b, inr v) =>
            let p := with_verified v (with_backend b p) in
            if v then
              navigateLater "/chats"
                (updateUserVerificationStatus uid now
                   (with_ui (setMessage "Email verified! Redirecting...") p))
            else
              with_ui (setMessage "Email not verified yet. Please check your inbox.") p
        | (b, inl _) =>
            with_ui (setError "Error checking verification status.") (with_backend b p)
        end
    | None => p
    end in
  with_ui (setLoading false) p.

End VerifyEmail.

(** ** The routes of the application *)

Module App.

Inductive Screen := HomeScreen | AuthScreen | VerifyScreen | ChatsScreen.

(** What a route renders: a page, or [<Navigate to=... />]; no route
    matches any other path. *)
Inductive Element :=
  | Render (s : Screen)
  | Navigate (to : string)
  | NoMatch.

(** The [element] of the route matching [path], for the signed-in user's
    [emailVerified] flag, or [None] when nobody is signed in. *)
Definition element (path : string) (user : option bool) : Element :=
  if bool_decide (path = "/") then Render HomeScreen
  else if bool_decide (path = "/auth") then
    match user with
    | Some _ => Navigate "/chats"
    | None => Render AuthScreen
    end
  else if bool_decide (path = "/verify-email") then
    match user with
    | None => Navigate "/auth"
    | Some true => Navigate "/chats"
    | Some false => Render VerifyScreen
    end
  else if bool_decide (path = "/chats") then
    match user with
    | None => Navigate "/auth"
    | Some false => Navigate "/verify-email"
    | Some true => Render ChatsScreen
    end
  else NoMatch.

(** Following redirects, at most [fuel] of them: the path reached and the
    page shown there. *)
Fixpoint settle (fuel : nat) (path : string) (user : option bool)
    : option (string * Screen) :=
  match element path user with
  | Render s => Some (path, s)
  | NoMatch => None
  | Navigate to =>
      match fuel with
      | O => None
      | S fuel' => settle fuel' to user
      end
  end.

End App.

(** ** The history of a group *)

Module History.


End History.

(** * Properties *)

(** ** Sorting *)

Section SortingFacts.
Context {A : Type} (leb : A -> A -> bool).

Lemma insert_by_Permutation x l : insert_by leb x l ≡ₚ x :: l.
Proof.
  induction l as [|y l IH]; simpl; [done|].
  destruct (leb x y); [done|].
  rewrite IH. apply Permutation_swap.
Qed.

Lemma sort_by_Permutation l : sort_by leb l ≡ₚ l.
Proof.
  induction l as [|x l IH]; simpl; [done|].
  rewrite insert_by_Permutation. by f_equiv.
Qed.

Lemma sort_by_elem_of x l : x ∈ sort_by leb l ↔ x ∈ l.
Proof. by rewrite sort_by_Permutation. Qed.

Lemma sort_by_length l : length (sort_by leb l) = length l.
Proof. by rewrite sort_by_Permutation. Qed.

Hypothesis leb_total : forall a b, leb a b = true \/ leb b a = true.

Lemma insert_by_HdRel a x l :
  leb a x = true -> HdRel (fun u v => leb u v = true) a l ->
  HdRel (fun u v => leb u v = true) a (insert_by leb x l).
Proof.
  intros Hax Hal. destruct l as [|y l]; simpl; [by constructor|].
  destruct (leb x y); constructor; [done|].
  by inversion Hal.
Qed.

Lemma insert_by_Sorted x l :
  Sorted (fun u v => leb u v = true) l ->
  Sorted (fun u v => leb u v = true) (insert_by leb x l).
Proof.
  induction 1 as [|y l Hs IH Hhd]; simpl.
  - by repeat constructor.
  - destruct (leb x y) eqn:Hxy.
    + constructor; [by constructor|by constructor].
    + constructor; [done|].
      apply insert_by_HdRel; [|done].
      destruct (leb_total x y) as [H|H]; congruence.
Qed.

Lemma sort_by_Sorted l : Sorted (fun u v => leb u v = true) (sort_by leb l).
Proof.
  induction l as [|x l IH]; simpl; [constructor|].
  by apply insert_by_Sorted.
Qed.

End SortingFacts.

Lemma Sorted_mono {A} (R R' : A -> A -> Prop) l :
  (forall a b, R a b -> R' a b) -> Sorted R l -> Sorted R' l.
Proof.
  intros HR. induction 1 as [|x l Hs IH Hhd]; constructor; [done|].
  destruct Hhd; constructor; auto.
Qed.

(** ** The document order of the store *)

Section StoreOrder.
Import Firestore.

Lemma ts_compare_antisym a b : ts_compare b a = CompOpp (ts_compare a b).
Proof.
  unfold ts_compare. rewrite (Z.compare_antisym (seconds a) (seconds b)).
  destruct (seconds a ?= seconds b); simpl; [|done..].
  apply Z.compare_antisym.
Qed.

Lemma field_compare_antisym a b : field_compare b a = CompOpp (field_compare a b).
Proof. destruct a, b; simpl; [|done..]. apply ts_compare_antisym. Qed.

Lemma doc_compare_antisym a b : doc_compare b a = CompOpp (doc_compare a b).
Proof.
  unfold doc_compare. rewrite (field_compare_antisym (msg_timestamp a)).
  destruct (field_compare _ _); simpl; [|done..].
  apply String.compare_antisym.
Qed.

Lemma desc_leb_total a b : desc_leb a b = true \/ desc_leb b a = true.
Proof.
  unfold desc_leb. rewrite (doc_compare_antisym a b).
  destruct (doc_compare a b); simpl; auto.
Qed.

Lemma ts_compare_Eq a b : ts_compare a b = Eq -> a = b.
Proof.
  unfold ts_compare. destruct a as [sa na], b as [sb nb]. simpl.
  destruct (Z.compare_spec sa sb); [|done..].
  intros ?%Z.compare_eq. by subst.
Qed.

Lemma ts_compare_Lt_trans a b c :
  ts_compare a b = Lt -> ts_compare b c = Lt -> ts_compare a c = Lt.
Proof.
  unfold ts_compare.
  destruct (Z.compare_spec (seconds a) (seconds b));
    destruct (Z.compare_spec (seconds b) (seconds c));
    destruct (Z.compare_spec (seconds a) (seconds c));
    try done; try lia.
  rewrite !Z.compare_lt_iff. lia.
Qed.

Lemma field_compare_Eq a b : field_compare a b = Eq -> a = b.
Proof. destruct a, b; simpl; try done. by intros ->%ts_compare_Eq. Qed.

Lemma field_compare_refl a : field_compare a a = Eq.
Proof.
  pose proof (field_compare_antisym a a) as H.
  by destruct (field_compare a a).
Qed.

Lemma field_compare_Lt_trans a b c :
  field_compare a b = Lt -> field_compare b c = Lt -> field_compare a c = Lt.
Proof. destruct a, b, c; simpl; try done. apply ts_compare_Lt_trans. Qed.

Lemma string_compare_Lt_trans (a b c : string) :
  String.compare a b = Lt -> String.compare b c = Lt -> String.compare a c = Lt.
Proof.
  intros Hab Hbc.
  assert (String.le a b) as Lab by (unfold String.le, String.leb; by rewrite Hab).
  assert (String.le b c) as Lbc by (unfold String.le, String.leb; by rewrite Hbc).
  assert (String.le a c) as Lac by (by etrans).
  unfold String.le, String.leb in Lac.
  destruct (String.compare a c) eqn:Hac; [|done..].
  apply String.compare_eq_iff in Hac as ->.
  rewrite String.compare_antisym, Hab in Hbc. done.
Qed.

Lemma doc_compare_Eq a b :
  doc_compare a b = Eq -> msg_timestamp a = msg_timestamp b /\ msg_id a = msg_id b.
Proof.
  unfold doc_compare.
  destruct (field_compare _ _) eqn:Hf; [|done..].
  intros ?%String.compare_eq_iff. split; [by apply field_compare_Eq|done].
Qed.

Lemma doc_compare_Lt_trans a b c :
  doc_compare a b = Lt -> doc_compare b c = Lt -> doc_compare a c = Lt.
Proof.
  unfold doc_compare.
  destruct (field_compare (msg_timestamp a) (msg_timestamp b)) eqn:Hab; [| |done];
    destruct (field_compare (msg_timestamp b) (msg_timestamp c)) eqn:Hbc; try done.
  - apply field_compare_Eq in Hab, Hbc. rewrite Hab, Hbc, field_compare_refl.
    apply string_compare_Lt_trans.
  - apply field_compare_Eq in Hab. rewrite Hab, Hbc. done.
  - apply field_compare_Eq in Hbc. rewrite <- Hbc, Hab. done.
  - by rewrite (field_compare_Lt_trans _ _ _ Hab Hbc).
Qed.

Lemma doc_compare_Eq_l a b c : doc_compare a b = Eq -> doc_compare a c = doc_compare b c.
Proof. intros [Ht Hi]%doc_compare_Eq. unfold doc_compare. by rewrite Ht, Hi. Qed.

Lemma doc_compare_Eq_r a b c : doc_compare b c = Eq -> doc_compare a c = doc_compare a b.
Proof. intros [Ht Hi]%doc_compare_Eq. unfold doc_compare. by rewrite Ht, Hi. Qed.

#[local] Instance desc_leb_trans : Transitive (fun a b => desc_leb a b = true).
Proof.
  intros a b c. unfold desc_leb.
  destruct (doc_compare a b) eqn:Hab; [| done |];
    destruct (doc_compare b c) eqn:Hbc; try done; intros _ _.
  - by rewrite (doc_compare_Eq_l a b c Hab), Hbc.
  - by rewrite (doc_compare_Eq_l a b c Hab), Hbc.
  - by rewrite (doc_compare_Eq_r a b c Hbc), Hab.
  - destruct (doc_compare a c) eqn:Hac; [done| |done].
    rewrite doc_compare_antisym in Hab, Hbc.
    apply (f_equal CompOpp) in Hab, Hbc.
    rewrite CompOpp_involutive in Hab, Hbc. simpl in Hab, Hbc.
    pose proof (doc_compare_Lt_trans _ _ _ Hbc Hab) as Hca.
    rewrite doc_compare_antisym, Hac in Hca. done.
Qed.

Lemma StronglySorted_sublist {A} (R : A -> A -> Prop) l1 l2 :
  l1 `sublist_of` l2 -> StronglySorted R l2 -> StronglySorted R l1.
Proof.
  induction 1 as [|x l1 l2 Hsub IH|x l1 l2 Hsub IH]; intros Hs.
  - constructor.
  - apply StronglySorted_inv in Hs as [Hs Hall]. constructor; [by apply IH|].
    apply Forall_forall. intros y Hy. eapply Forall_forall in Hall; [done|].
    by eapply elem_of_sublist.
  - apply StronglySorted_inv in Hs as [Hs _]. by apply IH.
Qed.

Lemma filter_sublist {A} (f : A -> bool) l : List.filter f l `sublist_of` l.
Proof.
  induction l as [|x l IH]; simpl; [constructor|].
  destruct (f x); by constructor.
Qed.

(** A query answers with documents of its group, at most [limit] of
    them, all strictly after the cursor when one is given, in the order of
    [orderBy('timestamp', 'desc')], and skipping none: a document of the
    group after the cursor that is left out comes after all that are
    returned. *)
Lemma runQuery_in_group q col m :
  m ∈ runQuery q col -> msg_groupId m = q_groupId q /\ m ∈ col.
Proof.
  unfold runQuery. intros Hm.
  apply subseteq_take in Hm.
  assert (m ∈ sort_by desc_leb (List.filter (in_group (q_groupId q)) col)) as Hs.
  { destruct (q_startAfter q); [|done].
    apply list_elem_of_In, List.filter_In in Hm as [Hm _].
    by apply list_elem_of_In. }
  apply sort_by_elem_of, list_elem_of_In, List.filter_In in Hs as [Hin Hg].
  split; [|by apply list_elem_of_In].
  unfold in_group in Hg. by apply bool_decide_eq_true in Hg.
Qed.


Lemma runQuery_length q col : (length (runQuery q col) <= q_limit q)%nat.
Proof. unfold runQuery. rewrite length_take. lia. Qed.

Lemma candidates_sorted q col :
  StronglySorted (fun a b => desc_leb a b = true)
    (match q_startAfter q with
     | Some c => List.filter (strictly_after c)
                   (sort_by desc_leb (List.filter (in_group (q_groupId q)) col))
     | None => sort_by desc_leb (List.filter (in_group (q_groupId q)) col)
     end).
Proof.
  assert (StronglySorted (fun a b => desc_leb a b = true)
            (sort_by desc_leb (List.filter (in_group (q_groupId q)) col))) as Hs.
  { apply Sorted_StronglySorted; [apply _|].
    apply sort_by_Sorted, desc_leb_total. }
  destruct (q_startAfter q); [|done].
  eapply StronglySorted_sublist; [apply filter_sublist|done].
Qed.

Lemma runQuery_sorted q col :
  StronglySorted (fun a b => desc_leb a b = true) (runQuery q col).
Proof.
  unfold runQuery.
  eapply StronglySorted_sublist; [apply sublist_take|apply candidates_sorted].
Qed.


End StoreOrder.

(** ** The feed: merging live additions and older pages *)

Section Feed.
Import ChatsPage Spec Sample.

Lemma find_by_id_None i (l : list Message) :
  List.find (fun m => bool_decide (msg_id m = i)) l = None <-> i ∉ ids l.
Proof.
  unfold ids. induction l as [|m l IH]; simpl.
  - split; [intros _; apply not_elem_of_nil|done].
  - rewrite not_elem_of_cons. case_bool_decide as Hm.
    + split; [done|]. intros [Hne _]. by destruct Hne.
    + rewrite IH. split; [|tauto]. intros ?; split; [congruence|done].
Qed.

(** The live callback inserts a delivered document, at the front, exactly
    when its id is not yet in the list. *)
Lemma mergeAdded_absent m prev :
  msg_id m ∉ ids prev -> mergeAdded m prev = m :: prev.
Proof. intros H. unfold mergeAdded. by apply find_by_id_None in H as ->. Qed.

Lemma mergeAdded_present m prev :
  msg_id m ∈ ids prev -> mergeAdded m prev = prev.
Proof.
  intros H. unfold mergeAdded.
  destruct (List.find _ prev) eqn:Hf; [done|].
  by apply find_by_id_None in Hf.
Qed.

Lemma mergeAdded_NoDup m prev :
  NoDup (ids prev) -> NoDup (ids (mergeAdded m prev)).
Proof.
  intros Hnd. destruct (decide (msg_id m ∈ ids prev)) as [Hin|Hout].
  - by rewrite mergeAdded_present.
  - rewrite mergeAdded_absent by done. unfold ids. simpl.
    by apply NoDup_cons.
Qed.

(** Whatever a live listener reports, its callback keeps the ids of the
    feed distinct. *)
Lemma onChanges_NoDup changes s :
  NoDup (ids (messages s)) -> NoDup (ids (messages (onChanges changes s))).
Proof.
  unfold onChanges. revert s.
  induction changes as [|c changes IH]; intros s Hnd; simpl; [done|].
  apply IH. destruct (change_type c); simpl; [|done..].
  by apply mergeAdded_NoDup.
Qed.

Lemma deliver_NoDup l changes p :
  NoDup (ids (messages (ui p))) ->
  NoDup (ids (messages (ui (deliver l changes p)))).
Proof.
  intros Hnd. unfold deliver.
  destruct (List.find _ (listeners p)); [|done].
  destruct (forallb _ changes); [|done].
  simpl. by apply onChanges_NoDup.
Qed.

(** An older page is appended as fetched; the ids stay distinct when the
    page brings distinct ids that the feed does not hold yet. *)
Lemma loadMessages_resume_messages c page s :
  messages (loadMessages_resume (Some c) (inr page) s) = messages s ++ page.
Proof. unfold loadMessages_resume. by destruct (lastDoc page). Qed.

Lemma loadMoreMessages_resume_NoDup c page s :
  NoDup (ids (messages s)) -> NoDup (ids page) ->
  (forall i, i ∈ ids (messages s) -> i ∉ ids page) ->
  NoDup (ids (messages (loadMoreMessages_resume (Some c) (inr page) s))).
Proof.
  intros Hs Hp Hdisj.
  assert (messages (loadMoreMessages_resume (Some c) (inr page) s)
          = messages s ++ page) as ->.
  { unfold loadMoreMessages_resume, loadMessages_resume.
    by destruct (lastDoc page). }
  unfold ids. rewrite fmap_app.
  by apply NoDup_app.
Qed.

(** C1, at the failing input. Group [a] holds 26 messages and is
    selected: the feed shows the 25 newest, the cursor is message 2. The
    messages 2 to 26 are then deleted from the store, so the listener on
    the newest message reports message 1 as added; it is not in the feed
    and is inserted. The next pagination fetch returns message 1, which is
    older than the cursor, and appends it: the feed holds its id twice. *)
Theorem feed_duplicate_after_pagination :
  let p1 := handleGroupSelect grpA (mounted (server [grpA] (msgs "a" 1 26))) in
  let p2 := deliver 0 [mkChange removed (msg "a" 26); mkChange added (msg "a" 1)]
                  (keep_only [msg "a" 1] p1) in
  let p3 := loadMoreMessages p2 in
  messages (ui p1) = msgs_desc "a" 26 2 /\
  lastMessageRef (ui p1) = Some (msg "a" 2) /\
  listeners p1 = [mkListener 0 "a"] /\
  messages (ui p2) = msg "a" 1 :: msgs_desc "a" 26 2 /\
  NoDup (ids (messages (ui p2))) /\
  messages (ui p3) = msg "a" 1 :: msgs_desc "a" 26 2 ++ [msg "a" 1] /\
  ~ NoDup (ids (messages (ui p3))).
Proof.
  cbv zeta.
  repeat match goal with |- _ /\ _ => split end.
  - by vm_compute.
  - by vm_compute.
  - by vm_compute.
  - by vm_compute.
  - apply (bool_decide_unpack _). by vm_compute.
  - by vm_compute.
  - intros H. apply (bool_decide_pack _) in H. by vm_compute in H.
Qed.

(** The same failure without any deletion: a pagination response that is
    still in flight when another group is selected. Group [a] holds 50
    messages (times 101 to 150), group [b] holds 25 (times 1 to 25). With
    [a] selected an older page is requested; before it arrives [b] is
    selected and its first page stored. The late answer for [a] is
    appended all the same and moves the cursor to a message of [a]; the
    next pagination fetch for [b] starts after that cursor and returns the
    25 messages of [b] already shown. *)
Lemma feed_duplicate_after_group_switch :
  let store := server [grpA; grpB] (msgs "a" 101 150 ++ msgs "b" 1 25) in
  let p1 := handleGroupSelect grpA (mounted store) in
  let begun := loadMoreMessages_begin (ui p1) in
  let late := runQuery (messagesQuery "a" (Some (msg "a" 126))) (messages_col store) in
  let p2 := handleGroupSelect grpB (with_ui (fun _ => fst begun) p1) in
  let p3 := with_ui (loadMoreMessages_resume (Some (msg "a" 126)) (inr late)) p2 in
  let p4 := loadMoreMessages p3 in
  snd begun = Some ("a", Some (msg "a" 126)) /\
  messages (ui p2) = msgs_desc "b" 25 1 /\
  messages (ui p3) = msgs_desc "b" 25 1 ++ msgs_desc "a" 125 101 /\
  lastMessageRef (ui p3) = Some (msg "a" 101) /\
  messages (ui p4) = msgs_desc "b" 25 1 ++ msgs_desc "a" 125 101 ++ msgs_desc "b" 25 1 /\
  ~ NoDup (ids (messages (ui p4))).
Proof.
  cbv zeta.
  repeat match goal with |- _ /\ _ => split end.
  1-5: by vm_compute.
  intros H. apply (bool_decide_pack _) in H. by vm_compute in H.
Qed.

(** What the listener of the [selectedGroup?.id] effect stores is sorted
    ascending by whole seconds, a missing timestamp counting as 0. *)
Lemma onMessagesSnapshot_sorted docs s :
  Sorted (fun a b => time_of a <= time_of b) (messages (onMessagesSnapshot docs s)).
Proof.
  simpl.
  eapply Sorted_mono; [|apply (sort_by_Sorted by_seconds)].
  - intros a b. unfold by_seconds. lia.
  - intros a b. unfold by_seconds. lia.
Qed.

(** The order that listener computes does not look at the fallback time
    [createdAt], although sending a message stores one. *)
Lemma by_seconds_ignores_fallback a b a' b' :
  msg_timestamp a = msg_timestamp a' -> msg_timestamp b = msg_timestamp b' ->
  by_seconds a b = by_seconds a' b'.
Proof. intros Ha Hb. unfold by_seconds, time_of. by rewrite Ha, Hb. Qed.

Lemma handleSendMessage_stores newId t now p g u uid :
  selectedGroup (ui p) = Some g -> userData (ui p) = Some u ->
  currentUser (backend p) = Some uid ->
  JS.trim (newMessage (ui p)) <> "" ->
  reachable (backend p) = true ->
  messages_col (backend (handleSendMessage newId t now p))
  = messages_col (backend p)
    ++ [mkMessage newId (JS.trim (newMessage (ui p))) uid (ud_username u)
                  (Some t) (grp_id g) (Some now)].
Proof.
  intros Hg Hu Huid Hm Hup. unfold handleSendMessage.
  rewrite Hg, Hu, Huid. destruct (JS.trim _) eqn:Ht; [done|]. simpl.
  unfold SDK.addMessage, call. simpl. by rewrite Hup.
Qed.

Ltac refute_by_evaluation :=
  let H := fresh in
  intros H; apply (bool_decide_pack _) in H; by vm_compute in H.

Ltac confirm_by_evaluation :=
  apply (bool_decide_unpack _); by vm_compute.

(** C2, at the failing inputs. (1) A group of two messages is selected:
    the first page is stored as fetched, newest first. (2) A message then
    added live goes in front. (3) The listener of the effect sorts by the
    seconds of the server timestamp alone: a message whose server
    timestamp is pending counts as time 0 and is shown first, although its
    fallback time is the latest. (4) After that listener has sorted the
    feed oldest first, an older page is still appended at the end. In none
    of these states is the feed ascending by effective timestamp. *)
Theorem feed_not_ascending :
  let p1 := handleGroupSelect grpA (mounted (server [grpA] (msgs "a" 1 2))) in
  let p2 := deliver 0 [mkChange added (msg "a" 3)] (arrives (msg "a" 3) p1) in
  let s3 := onMessagesSnapshot [pending "a" 3; msg "a" 2; msg "a" 1] (ui p1) in
  let q1 := handleGroupSelect grpA (mounted (server [grpA] (msgs "a" 1 27))) in
  let q2 := loadMoreMessages (effect_fires q1) in
  (messages (ui p1) = [msg "a" 2; msg "a" 1] /\ ~ ascending (messages (ui p1))) /\
  (messages (ui p2) = [msg "a" 3; msg "a" 2; msg "a" 1] /\
   ~ ascending (messages (ui p2))) /\
  (messages s3 = [pending "a" 3; msg "a" 1; msg "a" 2] /\ ~ ascending (messages s3)) /\
  (messages (ui q2) = msgs "a" 3 27 ++ [msg "a" 2; msg "a" 1] /\
   ~ ascending (messages (ui q2))).
Proof.
  cbv zeta.
  repeat match goal with |- _ /\ _ => split end;
    first [by vm_compute | refute_by_evaluation].
Qed.

(** What [handleGroupSelect] leaves in the feed is the first page as the
    store returns it. *)
Lemma handleGroupSelect_messages group p :
  reachable (backend p) = true ->
  messages (ui (handleGroupSelect group p))
  = runQuery (messagesQuery (grp_id group) None) (messages_col (backend p)).
Proof.
  intros Hup. unfold handleGroupSelect, handleGroupSelect_begin, SDK.getDocs, call.
  destruct (messageListener (ui p)); simpl; rewrite Hup; simpl;
    by destruct (lastDoc _).
Qed.

(** Whatever the store holds, the first page is shown in the order of
    the query, newest first. *)
Lemma handleGroupSelect_newest_first group p :
  reachable (backend p) = true ->
  StronglySorted (fun a b => desc_leb a b = true)
    (messages (ui (handleGroupSelect group p))).
Proof.
  intros Hup. rewrite handleGroupSelect_messages by done. apply runQuery_sorted.
Qed.

(** C3, at the input of the example. A group of 30 messages is selected:
    one query for the 25 newest is issued, and the feed holds them as
    fetched, newest first, which is not ascending. Loading older messages
    then issues one query after the cursor (message 6), appends the
    remaining 5 and clears [hasMoreMessages]. The listener of the effect
    does sort what it reports oldest first, so the order shown depends on
    which answer arrives last: the feed is ascending when the snapshot of
    that listener comes after the fetch ([e1]), and newest first when the
    fetch settles after it ([r1]). *)
Theorem thirty_messages_example :
  let p0 := mounted (server [grpA] (msgs "a" 1 30)) in
  let p1 := handleGroupSelect grpA p0 in
  let p2 := loadMoreMessages p1 in
  let e1 := effect_fires p1 in
  let r1 := handleGroupSelect_resume grpA
              (inr (runQuery (messagesQuery "a" None) (messages_col (backend p0))))
              (effect_fires (handleGroupSelect_begin grpA p0)) in
  calls (backend p1) = [CGetDocs (mkQuery "a" None 25)] /\
  messages (ui p1) = msgs_desc "a" 30 6 /\
  descending (messages (ui p1)) /\
  ~ ascending (messages (ui p1)) /\
  hasMoreMessages (ui p1) = true /\
  lastMessageRef (ui p1) = Some (msg "a" 6) /\
  calls (backend p2) = [CGetDocs (mkQuery "a" None 25);
                        CGetDocs (mkQuery "a" (Some (msg "a" 6)) 25)] /\
  messages (ui p2) = msgs_desc "a" 30 6 ++ msgs_desc "a" 5 1 /\
  hasMoreMessages (ui p2) = false /\
  lastMessageRef (ui p2) = Some (msg "a" 1) /\
  messages (ui e1) = msgs "a" 6 30 /\
  messages (ui r1) = msgs_desc "a" 30 6 /\
  ~ ascending (messages (ui r1)).
Proof.
  cbv zeta.
  repeat match goal with |- _ /\ _ => split end;
    first [by vm_compute | refute_by_evaluation | confirm_by_evaluation].
Qed.

(** No handler ever stores a detaching function: selecting a group
    attaches a listener and leaves [messageListener] empty, so the branch
    of [handleGroupSelect] that would detach the previous listener never
    runs. *)
Lemma handleGroupSelect_listeners group p :
  messageListener (ui p) = None ->
  reachable (backend p) = true ->
  listeners (handleGroupSelect group p)
    = listeners p ++ [mkListener (next_listener p) (grp_id group)] /\
  messageListener (ui (handleGroupSelect group p)) = None.
Proof.
  intros Hnone Hup. unfold handleGroupSelect, handleGroupSelect_begin.
  rewrite Hnone. unfold SDK.getDocs, call. simpl. rewrite Hup. simpl.
  split; [done|].
  by destruct (lastDoc _).
Qed.

(** C5, at the failing input. Group [a] is selected, then group [b].
    Both listeners are attached afterwards; when a message is posted in
    [a], the listener of [a] puts it into the feed of [b]. *)
Theorem listener_survives_group_switch :
  let store := server [grpA; grpB] (msgs "a" 1 3 ++ msgs "b" 1 3) in
  let p1 := handleGroupSelect grpA (mounted store) in
  let p2 := handleGroupSelect grpB p1 in
  let p3 := deliver 0 [mkChange added (msg "a" 4)] (arrives (msg "a" 4) p2) in
  listeners p1 = [mkListener 0 "a"] /\
  messageListener (ui p1) = None /\
  listeners p2 = [mkListener 0 "a"; mkListener 1 "b"] /\
  selectedGroup (ui p3) = Some grpB /\
  messages (ui p3) = msg "a" 4 :: msgs_desc "b" 3 1 /\
  msg_groupId (msg "a" 4) <> grp_id grpB.
Proof.
  cbv zeta.
  repeat match goal with |- _ /\ _ => split end; by vm_compute.
Qed.

End Feed.

(** ** Loading older messages *)

Section Pagination.
Import ChatsPage Spec Sample.

(** The guard of [loadMoreMessages] in isolation. *)
Lemma loadMoreMessages_begin_guarded s :
  selectedGroup s = None \/ isLoadingMore s = true \/ hasMoreMessages s = false ->
  loadMoreMessages_begin s = (s, None).
Proof.
  unfold loadMoreMessages_begin.
  intros [-> | [Hl | Hm]]; [done| |]; destruct (selectedGroup s); try done.
  - rewrite Hl. by rewrite orb_true_r.
  - by rewrite Hm.
Qed.




End Pagination.

(** ** Strings *)

Section Strings.


Lemma map_chars_all (p q : ascii -> bool) f s :
  (forall c, p c = true -> q (f c) = true) ->
  JS.all_chars p s = true -> JS.all_chars q (JS.map_chars f s) = true.
Proof.
  intros Hpq. induction s as [|c s IH]; simpl; [done|].
  intros [Hc Hs]%andb_true_iff. rewrite (Hpq c Hc). by apply IH.
Qed.


Lemma upper_char_base36 c :
  Spec.base36_digit c = true -> Spec.upper_alnum (JS.upper_char c) = true.
Proof. destruct c as [[] [] [] [] [] [] [] []]; by vm_compute. Qed.


Lemma inviteCodeOf_chars rnd :
  JS.all_chars Spec.base36_digit (JS.substring 2 10 rnd) = true ->
  JS.all_chars Spec.upper_alnum (ChatsPage.inviteCodeOf rnd) = true.
Proof. apply map_chars_all, upper_char_base36. Qed.

End Strings.

(** ** Groups: creating, inviting, joining *)

Section Groups.
Import ChatsPage Spec Sample.

Lemma arrayUnion_elem_of x y l : y ∈ SDK.arrayUnion x l <-> y = x \/ y ∈ l.
Proof.
  unfold SDK.arrayUnion. case_bool_decide as Hx.
  - split; [auto|]. by intros [->|].
  - rewrite elem_of_app, list_elem_of_singleton. tauto.
Qed.

Lemma arrayUnion_idemp x l : SDK.arrayUnion x (SDK.arrayUnion x l) = SDK.arrayUnion x l.
Proof.
  unfold SDK.arrayUnion at 1. rewrite bool_decide_eq_true_2; [done|].
  apply arrayUnion_elem_of. by left.
Qed.

Lemma arrayUnion_NoDup x l : NoDup l -> NoDup (SDK.arrayUnion x l).
Proof.
  intros Hl. unfold SDK.arrayUnion. case_bool_decide as Hx; [done|].
  apply NoDup_app. split_and!; [done| |apply NoDup_singleton].
  intros y Hy ->%list_elem_of_singleton. done.
Qed.

(** An update of an existing group document rewrites that document and no
    other. *)
Lemma updateGroup_existing id f b :
  reachable b = true ->
  id ∈ grp_id <$> groups_col b ->
  SDK.updateGroup id f b
  = (set_groups_col
       (map (fun g => if bool_decide (grp_id g = id) then f g else g) (groups_col b))
       (record_call (CUpdateGroup id) b), inr tt).
Proof.
  intros Hup Hin. unfold SDK.updateGroup, call. simpl. rewrite Hup.
  assert (existsb (fun g => bool_decide (grp_id g = id)) (groups_col b) = true) as ->.
  { apply existsb_exists. apply list_elem_of_fmap in Hin as (g & -> & Hg).
    exists g. split; [by apply list_elem_of_In|]. by apply bool_decide_eq_true. }
  done.
Qed.

Lemma resolves_elem_of code b g :
  g ∈ resolves code b <-> g ∈ groups_col b /\ grp_inviteCode g = Some code.
Proof.
  unfold resolves. rewrite sort_by_elem_of, list_elem_of_In, List.filter_In.
  rewrite <- list_elem_of_In. unfold SDK.has_code.
  by rewrite bool_decide_eq_true.
Qed.

(** [generateInviteCode] with the backend reachable and the document of
    the selected group in place. *)
Lemma generateInviteCode_stored rnd p g :
  selectedGroup (ui p) = Some g ->
  reachable (backend p) = true ->
  grp_id g ∈ grp_id <$> groups_col (backend p) ->
  generateInviteCode rnd p
  = with_ui (fun s => setShowInviteModal true (setInviteCode (inviteCodeOf rnd) s))
      (with_backend
         (set_groups_col
            (map (fun d => if bool_decide (grp_id d = grp_id g)
                           then setCode (inviteCodeOf rnd) d else d)
                 (groups_col (backend p)))
            (record_call (CUpdateGroup (grp_id g)) (backend p))) p).
Proof.
  intros Hsel Hup Hin. unfold generateInviteCode. rewrite Hsel.
  by rewrite updateGroup_existing.
Qed.




Lemma truthy_false s : JS.truthy s = false <-> s = "".
Proof. by destruct s. Qed.

Lemma truthy_true s : JS.truthy s = true <-> s <> "".
Proof. by destruct s. Qed.

Lemma resolves_nil code b :
  resolves code b = [] <->
  forall g, g ∈ groups_col b -> grp_inviteCode g <> Some code.
Proof.
  split.
  - intros Hnil g Hg Hc.
    assert (g ∈ resolves code b) as Hin by by apply resolves_elem_of.
    rewrite Hnil in Hin. by apply not_elem_of_nil in Hin.
  - intros Hnone. destruct (resolves code b) as [|g l] eqn:Hr; [done|].
    assert (g ∈ resolves code b) as [Hg Hc]%resolves_elem_of
      by (rewrite Hr; by left).
    by destruct (Hnone g Hg).
Qed.

(** The [try] block of [handleJoinGroup] against a reachable backend. *)
Lemma joinGroup_run uid code b :
  reachable b = true ->
  joinGroup uid code b
  = let norm := JS.toUpperCase (JS.trim code) in
    let b1 := record_call (CGetGroupsByCode norm) b in
    match resolves norm b with
    | [] => (b1, inl invalidCode)
    | g :: _ =>
        if bool_decide (uid ∈ grp_members g) then (b1, inl alreadyMember)
        else SDK.updateGroup (grp_id g) (addMember uid) b1
    end.
Proof.
  intros Hup. unfold joinGroup, bind, SDK.getGroupsByCode, call. simpl.
  rewrite Hup. unfold resolves.
  destruct (sort_by _ _) as [|g l]; [done|].
  by case_bool_decide.
Qed.







End Groups.

(** ** Signing up *)

Section SignUp.
Import AuthPage Spec Sample.

Lemma validate_rejects s :
  password s <> confirmPassword s
  \/ (String.length (password s) < 6)%nat
  \/ (String.length (username s) < 3)%nat ->
  exists msg, validate s = Some msg /\ msg ∈ validation_errors.
Proof.
  intros H. unfold validate, validation_errors.
  case_bool_decide as Hpw; simpl.
  - destruct (String.length (password s) <? 6)%nat eqn:Hlen.
    + eexists; split; [done|]. by repeat constructor.
    + destruct (negb _ || _) eqn:Hun.
      * eexists; split; [done|]. by repeat constructor.
      * apply Nat.ltb_ge in Hlen.
        apply orb_false_iff in Hun as [_ Hun%Nat.ltb_ge].
        destruct H as [H|[H|H]]; [done|lia|lia].
  - eexists; split; [done|]. by repeat constructor.
Qed.


(** C8. On the sign-up form, when the two passwords differ, or the
    password has fewer than 6 characters, or the username fewer than 3,
    the handler shows one of the three validation messages and leaves the
    backend as it was: no call is issued, no account, profile document or
    reservation is created, and the page does not navigate. *)
Theorem signup_validation_blocks newUid now p :
  isSignUp (ui p) = true ->
  resetMode (ui p) = false ->
  password (ui p) <> confirmPassword (ui p)
  \/ (String.length (password (ui p)) < 6)%nat
  \/ (String.length (username (ui p)) < 3)%nat ->
  let p' := handleAuth newUid now p in
  backend p' = backend p /\
  location p' = location p /\
  error (ui p') ∈ validation_errors /\
  loading (ui p') = false.
Proof.
  intros Hsign Hreset (msg & Hval & Hmsg)%validate_rejects p'.
  unfold p', handleAuth. rewrite Hreset, Hsign, Hval. by simpl.
Qed.

Lemma signup_validation_blocks_witness :
  let p := mkPage (mkState true "bob@example.org" "secret1" "secret2" "Bob" ""
                     false "" false) empty_backend None in
  backend (handleAuth "uid1" 9 p) = empty_backend /\
  error (ui (handleAuth "uid1" 9 p)) ∈ validation_errors.
Proof.
  cbv zeta.
  pose proof (signup_validation_blocks "uid1" 9
                (mkPage (mkState true "bob@example.org" "secret1" "secret2" "Bob" ""
                           false "" false) empty_backend None)
                eq_refl eq_refl) as H.
  destruct H as (Hb & _ & He & _); [left; by vm_compute|].
  split; [exact Hb|exact He].
Defined.






End SignUp.

(** ** More on the feed *)

Section FeedMore.
Import ChatsPage ChatsEffects Spec Sample.

Lemma setMessages_setMessages l l' s : setMessages l (setMessages l' s) = setMessages l s.
Proof. done. Qed.

Lemma onChanges_cons c cs s :
  onChanges (c :: cs) s
  = onChanges cs (match change_type c with
                  | added => setMessages (mergeAdded (change_doc c) (messages s)) s
                  | _ => s
                  end).
Proof. done. Qed.

(** The live callback touches the message list only. *)
Lemma onChanges_only_messages cs s :
  onChanges cs s = setMessages (messages (onChanges cs s)) s.
Proof.
  revert s. induction cs as [|c cs IH]; intros s.
  - by destruct s.
  - rewrite onChanges_cons. rewrite IH at 1.
    destruct (change_type c); [|done..].
    by rewrite setMessages_setMessages.
Qed.

Lemma onChanges_messages_ext cs s s' :
  messages s = messages s' ->
  messages (onChanges cs s) = messages (onChanges cs s').
Proof.
  revert s s'. induction cs as [|c cs IH]; intros s s' Heq; [done|].
  rewrite !onChanges_cons. apply IH.
  destruct (change_type c); [|done..]. simpl. by rewrite Heq.
Qed.

Lemma mergeAdded_cases m prev :
  mergeAdded m prev = prev /\ msg_id m ∈ ids prev
  \/ mergeAdded m prev = m :: prev /\ msg_id m ∉ ids prev.
Proof.
  destruct (decide (msg_id m ∈ ids prev)) as [Hin|Hout].
  - left. by rewrite mergeAdded_present.
  - right. by rewrite mergeAdded_absent.
Qed.

Lemma mergeAdded_has_id m prev : msg_id m ∈ ids (mergeAdded m prev).
Proof.
  destruct (mergeAdded_cases m prev) as [[-> ?]|[-> ?]]; [done|].
  unfold ids. simpl. by left.
Qed.

(** How the live callback changes the feed. *)
Lemma onChanges_growth cs s :
  messages s `suffix_of` messages (onChanges cs s) /\
  (forall m, m ∈ messages (onChanges cs s) ->
     m ∈ messages s \/ mkChange added m ∈ cs) /\
  ((forall c, c ∈ cs -> change_type c <> added) -> onChanges cs s = s).
Proof.
  revert s. induction cs as [|c cs IH]; intros s.
  - split_and!; [done|by left|done].
  - rewrite onChanges_cons.
    destruct (IH (match change_type c with
                  | added => setMessages (mergeAdded (change_doc c) (messages s)) s
                  | _ => s
                  end)) as (Hsuf & Hfrom & Hnone).
    destruct c as [[] d]; simpl in *.
    + split_and!.
      * etrans; [|exact Hsuf].
        destruct (mergeAdded_cases d (messages s)) as [[-> _]|[-> _]];
          [done|by apply suffix_cons_r].
      * intros m [Hm|Hm]%Hfrom; [|right; by right].
        destruct (mergeAdded_cases d (messages s)) as [[Heq _]|[Heq _]];
          rewrite Heq in Hm; [by left|].
        apply elem_of_cons in Hm as [->|Hm]; [right; by left|by left].
      * intros Hno. by destruct (Hno (mkChange added d)); [left|].
    + split_and!; [done| |].
      * intros m [Hm|Hm]%Hfrom; [by left|right; by right].
      * intros Hno. apply Hnone. intros c Hc. apply Hno. by right.
    + split_and!; [done| |].
      * intros m [Hm|Hm]%Hfrom; [by left|right; by right].
      * intros Hno. apply Hnone. intros c Hc. apply Hno. by right.
Qed.

Lemma onChanges_ids_mono cs s i :
  i ∈ ids (messages s) -> i ∈ ids (messages (onChanges cs s)).
Proof.
  intros Hi. destruct (onChanges_growth cs s) as ([k Hk] & _ & _).
  rewrite Hk. unfold ids. rewrite fmap_app, elem_of_app. by right.
Qed.

Lemma onChanges_has_added cs s c :
  c ∈ cs -> change_type c = added ->
  msg_id (change_doc c) ∈ ids (messages (onChanges cs s)).
Proof.
  revert s. induction cs as [|c' cs IH]; intros s Hc Hadd.
  - by apply elem_of_nil in Hc.
  - rewrite onChanges_cons. apply elem_of_cons in Hc as [<-|Hc]; [|by apply IH].
    rewrite Hadd. apply onChanges_ids_mono. simpl. apply mergeAdded_has_id.
Qed.

Lemma onChanges_all_present cs s :
  (forall c, c ∈ cs -> change_type c = added ->
     msg_id (change_doc c) ∈ ids (messages s)) ->
  onChanges cs s = s.
Proof.
  revert s. induction cs as [|c cs IH]; intros s Hall; [done|].
  rewrite onChanges_cons.
  assert (match change_type c with
          | added => setMessages (mergeAdded (change_doc c) (messages s)) s
          | _ => s
          end = s) as ->.
  { destruct (change_type c) eqn:Hty; [|done..].
    rewrite mergeAdded_present by (apply Hall; [by left|done]).
    by destruct s. }
  apply IH. intros c' Hc'. apply Hall. by right.
Qed.

(** X2. Delivering the same changes a second time changes nothing: the
    live merge tolerates at-least-once delivery. *)
Theorem onChanges_redelivery cs s :
  onChanges cs (onChanges cs s) = onChanges cs s.
Proof.
  apply onChanges_all_present. intros c Hc Hadd. by apply onChanges_has_added.
Qed.

End FeedMore.

Section LiveMergeMore.
Import ChatsPage ChatsEffects Spec Sample.

(** X1. Whatever changes a listener reports, and however often, the ids
    of the feed stay distinct if they were: the callback never inserts an
    id twice, also when one snapshot carries the same document twice. *)
Theorem live_merge_keeps_ids_distinct cs s :
  NoDup (ids (messages s)) ->
  NoDup (ids (messages (onChanges cs s))) /\
  NoDup (ids (messages (onChanges cs (onChanges cs s)))).
Proof.
  intros Hnd. split; [by apply onChanges_NoDup|].
  by do 2 apply onChanges_NoDup.
Qed.

Lemma live_merge_keeps_ids_distinct_witness :
  let s := setMessages [msg "a" 2; msg "a" 1] initial in
  let cs := [mkChange added (msg "a" 3); mkChange added (msg "a" 3);
             mkChange added (msg "a" 1)] in
  NoDup (ids (messages (onChanges cs s))) /\
  ids (messages (onChanges cs s)) = ["a-3"; "a-2"; "a-1"].
Proof.
  cbv zeta. split; [|by vm_compute].
  apply (live_merge_keeps_ids_distinct
           [mkChange added (msg "a" 3); mkChange added (msg "a" 3);
            mkChange added (msg "a" 1)]
           (setMessages [msg "a" 2; msg "a" 1] initial)).
  apply (bool_decide_unpack _). by vm_compute.
Defined.

(** X3. The live callback only ever puts documents of [added] changes in
    front of the feed: what was in the feed stays, in place, as the tail
    of the new feed, and every message of the new feed was either there
    before or is the document of an [added] change. Changes of type
    [modified] and [removed] have no effect. *)
Theorem onChanges_grows_at_front cs s :
  messages s `suffix_of` messages (onChanges cs s) /\
  (forall m, m ∈ messages (onChanges cs s) ->
     m ∈ messages s \/ mkChange added m ∈ cs) /\
  ((forall c, c ∈ cs -> change_type c <> added) -> onChanges cs s = s).
Proof. apply onChanges_growth. Qed.

Lemma onChanges_grows_at_front_witness :
  let s := setMessages [msg "a" 2; msg "a" 1] initial in
  [msg "a" 2; msg "a" 1]
    `suffix_of` messages (onChanges [mkChange added (msg "a" 3)] s) /\
  onChanges [mkChange removed (msg "a" 2); mkChange modified (msg "a" 1)] s = s.
Proof.
  cbv zeta. split.
  - apply (onChanges_grows_at_front [mkChange added (msg "a" 3)]
             (setMessages [msg "a" 2; msg "a" 1] initial)).
  - apply (onChanges_grows_at_front
             [mkChange removed (msg "a" 2); mkChange modified (msg "a" 1)]
             (setMessages [msg "a" 2; msg "a" 1] initial)).
    intros c Hc. apply elem_of_cons in Hc as [->|Hc]; [done|].
    apply list_elem_of_singleton in Hc as ->. done.
Defined.

(** X8. The listener of the [selectedGroup?.id] effect stores exactly the
    documents it was given, none lost and none twice, ordered by the whole
    seconds of the server timestamp with a missing timestamp counting as
    0; documents of the same second keep the order they were reported
    in. *)
Theorem onMessagesSnapshot_spec docs s :
  messages (onMessagesSnapshot docs s) ≡ₚ docs /\
  Sorted (fun a b => time_of a <= time_of b) (messages (onMessagesSnapshot docs s)) /\
  (forall t, List.filter (fun m => time_of m =? t) (messages (onMessagesSnapshot docs s))
             = List.filter (fun m => time_of m =? t) docs).
Proof.
  split_and!.
  - apply sort_by_Permutation.
  - apply onMessagesSnapshot_sorted.
  - intros t. simpl. induction docs as [|d docs IH]; [done|].
    simpl. rewrite <- IH. clear IH.
    induction (sort_by by_seconds docs) as [|y l IHl]; simpl; [done|].
    destruct (by_seconds d y) eqn:Hdy; simpl; [done|].
    rewrite IHl. unfold by_seconds in Hdy. apply Z.leb_gt in Hdy.
    destruct (time_of d =? t) eqn:Hd, (time_of y =? t) eqn:Hy; try done.
    apply Z.eqb_eq in Hd, Hy. lia.
Qed.

End LiveMergeMore.

(** ** Selecting a group and paging through its history *)

Section Paging.
Import ChatsPage ChatsEffects Spec Sample.

(** What [handleGroupSelect] leaves behind, on a reachable backend. *)
Lemma handleGroupSelect_state group p :
  reachable (backend p) = true ->
  let page := runQuery (messagesQuery (grp_id group) None) (messages_col (backend p)) in
  let p' := handleGroupSelect group p in
  selectedGroup (ui p') = Some group /\
  messages (ui p') = page /\
  lastMessageRef (ui p') = last page /\
  hasMoreMessages (ui p') = Nat.eqb (length page) 25 /\
  isLoadingMore (ui p') = isLoadingMore (ui p) /\
  newMessage (ui p') = "" /\
  reachable (backend p') = true /\
  messages_col (backend p') = messages_col (backend p) /\
  calls (backend p')
    = calls (backend p) ++ [CGetDocs (messagesQuery (grp_id group) None)].
Proof.
  intros Hup. cbv zeta.
  unfold handleGroupSelect, handleGroupSelect_begin, SDK.getDocs, call.
  destruct (messageListener (ui p)); simpl; rewrite Hup; simpl;
    unfold lastDoc; by destruct (last _).
Qed.

(** X5. Selecting a group resets the feed whatever it held: afterwards it
    holds at most 25 messages, all of the selected group and all stored,
    the draft is empty, the cursor is the last message shown, and more
    history is announced exactly when 25 messages came back. If the ids of
    the stored messages are distinct, so are those of the feed. *)
Theorem handleGroupSelect_spec group p :
  reachable (backend p) = true ->
  let p' := handleGroupSelect group p in
  selectedGroup (ui p') = Some group /\
  newMessage (ui p') = "" /\
  (length (messages (ui p')) <= 25)%nat /\
  (forall m, m ∈ messages (ui p') ->
     msg_groupId m = grp_id group /\ m ∈ messages_col (backend p)) /\
  lastMessageRef (ui p') = last (messages (ui p')) /\
  hasMoreMessages (ui p') = bool_decide (length (messages (ui p')) = 25%nat) /\
  (NoDup (ids (messages_col (backend p))) -> NoDup (ids (messages (ui p')))).
Proof.
  intros Hup p'.
  destruct (handleGroupSelect_state group p Hup)
    as (Hsel & Hmsg & Hcur & Hmore & _ & Hdraft & _ & _ & _).
  fold p' in Hsel, Hmsg, Hcur, Hmore, Hdraft.
  rewrite Hmsg. split_and!; try done.
  - apply (runQuery_length (messagesQuery (grp_id group) None)).
  - intros m Hm. by apply (runQuery_in_group (messagesQuery (grp_id group) None)) in Hm.
  - rewrite Hmore. case_bool_decide as Hlen;
      [by apply Nat.eqb_eq|by apply Nat.eqb_neq].
  - intros Hnd. unfold runQuery. simpl.
    assert (NoDup (ids (sort_by desc_leb
              (List.filter (in_group (grp_id group)) (messages_col (backend p))))))
      as Hsorted.
    { unfold ids. rewrite sort_by_Permutation.
      eapply sublist_NoDup; [exact Hnd|].
      apply fmap_sublist, filter_sublist. }
    eapply sublist_NoDup; [exact Hsorted|].
    apply fmap_sublist, sublist_take.
Qed.

Lemma handleGroupSelect_spec_witness :
  let p := handleGroupSelect grpB
             (handleGroupSelect grpA
                (mounted (server [grpA; grpB] (msgs "a" 1 30 ++ msgs "b" 1 3)))) in
  selectedGroup (ui p) = Some grpB /\
  (forall m, m ∈ messages (ui p) -> msg_groupId m = "b") /\
  NoDup (ids (messages (ui p))).
Proof.
  cbv zeta.
  pose proof (handleGroupSelect_spec grpB
                (handleGroupSelect grpA
                   (mounted (server [grpA; grpB] (msgs "a" 1 30 ++ msgs "b" 1 3))))
                eq_refl) as (Hsel & _ & _ & Hgrp & _ & _ & Hnd).
  split; [exact Hsel|]. split.
  - intros m Hm. by apply Hgrp in Hm as [? _].
  - apply Hnd. apply (bool_decide_unpack _). by vm_compute.
Defined.

(** X6. When the first fetch fails, the group is selected all the same
    and the feed stays empty: no cursor is set and no live listener is
    attached, since the subscription is only made after the fetch. *)
Theorem handleGroupSelect_unreachable group p :
  reachable (backend p) = false ->
  messageListener (ui p) = None ->
  let p' := handleGroupSelect group p in
  selectedGroup (ui p') = Some group /\
  messages (ui p') = [] /\
  lastMessageRef (ui p') = None /\
  hasMoreMessages (ui p') = true /\
  listeners p' = listeners p.
Proof.
  intros Hdown Hnone. cbv zeta.
  unfold handleGroupSelect, handleGroupSelect_begin, SDK.getDocs, call.
  rewrite Hnone. simpl. by rewrite Hdown.
Qed.

Lemma handleGroupSelect_unreachable_witness :
  let p := with_backend
             (mkBackend false [] (Some "u1") ∅ ∅ [grpA] (msgs "a" 1 3) [])
             (with_ui (setMessages (msgs "b" 1 2)) (mounted (server [] []))) in
  messages (ui (handleGroupSelect grpA p)) = [] /\
  listeners (handleGroupSelect grpA p) = [].
Proof.
  cbv zeta.
  pose proof (handleGroupSelect_unreachable grpA
                (with_backend
                   (mkBackend false [] (Some "u1") ∅ ∅ [grpA] (msgs "a" 1 3) [])
                   (with_ui (setMessages (msgs "b" 1 2)) (mounted (server [] []))))
                eq_refl eq_refl) as (_ & Hm & _ & _ & Hl).
  split; [exact Hm|exact Hl].
Defined.



(** The scroll sensor loads exactly when the container comes into view;
    its own test of the flags repeats the guard of [loadMoreMessages]. *)
Lemma onIntersect_loads isIntersecting p :
  onIntersect isIntersecting p = if isIntersecting then loadMoreMessages p else p.
Proof.
  unfold onIntersect. destruct isIntersecting; simpl; [|done].
  destruct (hasMoreMessages (ui p)) eqn:Hm, (isLoadingMore (ui p)) eqn:Hl;
    simpl; try done;
    unfold loadMoreMessages; rewrite loadMoreMessages_begin_guarded; auto.
Qed.

End Paging.

(** ** Paging to the end of the history *)

Section Exhaustion.
Import ChatsPage ChatsEffects Spec Sample History.













End Exhaustion.

(** ** More on messages and groups *)

Section GroupsMore.
Import ChatsPage ChatsEffects Spec Sample.

Lemma filter_map_commute {A} (f : A -> A) (t : A -> bool) l :
  (forall x, t (f x) = t x) ->
  List.filter t (map f l) = map f (List.filter t l).
Proof.
  intros Ht. induction l as [|x l IH]; simpl; [done|].
  rewrite Ht. destruct (t x); simpl; by rewrite IH.
Qed.

Lemma sort_by_map {A} (f : A -> A) (leb : A -> A -> bool) l :
  (forall x y, leb (f x) (f y) = leb x y) ->
  sort_by leb (map f l) = map f (sort_by leb l).
Proof.
  intros Hleb. induction l as [|x l IH]; simpl; [done|].
  rewrite IH. clear IH.
  induction (sort_by leb l) as [|y k IHk]; simpl; [done|].
  rewrite Hleb. destruct (leb x y); simpl; [done|]. by rewrite IHk.
Qed.



(** X10. When the backend cannot be reached, creating a group stores
    nothing and selects nothing: the group list, the selection and the
    form stay as they were and the busy flag is cleared. *)
Theorem handleCreateGroup_unreachable newId t now p :
  reachable (backend p) = false ->
  let p' := handleCreateGroup newId t now p in
  groups_col (backend p') = groups_col (backend p) /\
  selectedGroup (ui p') = selectedGroup (ui p) /\
  groups (ui p') = groups (ui p) /\
  newGroupName (ui p') = newGroupName (ui p) /\
  showCreateGroup (ui p') = showCreateGroup (ui p) /\
  (JS.trim (newGroupName (ui p)) <> "" -> is_Some (currentUser (backend p)) ->
   creatingGroup (ui p') = false).
Proof.
  intros Hdown. cbv zeta. unfold handleCreateGroup.
  destruct (currentUser (backend p)) as [uid|];
    [|split_and!; first [done | by intros _ [? ?]]].
  destruct (JS.truthy (JS.trim (newGroupName (ui p)))) eqn:Hn.
  - unfold SDK.addGroup, call. simpl. rewrite Hdown. by simpl.
  - apply truthy_false in Hn. split_and!; first [done | by intros []].
Qed.

Lemma handleCreateGroup_unreachable_witness :
  let p := with_ui (setNewGroupName "team")
             (mounted (mkBackend false [] (Some "u1") ∅ ∅ [grpA] [] [])) in
  groups_col (backend (handleCreateGroup "g1" 5 7 p)) = [grpA] /\
  selectedGroup (ui (handleCreateGroup "g1" 5 7 p)) = None.
Proof.
  cbv zeta.
  pose proof (handleCreateGroup_unreachable "g1" 5 7
                (with_ui (setNewGroupName "team")
                   (mounted (mkBackend false [] (Some "u1") ∅ ∅ [grpA] [] [])))
                eq_refl) as (Hg & Hs & _).
  split; [exact Hg|exact Hs].
Defined.

(** X11. Generating an invite code does nothing without a selected
    group. When the document of the selected group is gone, or the
    backend cannot be reached, no group changes and no code is shown: the
    code field and the invite dialog stay as they were. *)
Theorem generateInviteCode_failure rnd p :
  (selectedGroup (ui p) = None -> generateInviteCode rnd p = p) /\
  (forall g,
     selectedGroup (ui p) = Some g ->
     reachable (backend p) = false \/ grp_id g ∉ grp_id <$> groups_col (backend p) ->
     let p' := generateInviteCode rnd p in
     groups_col (backend p') = groups_col (backend p) /\
     ui p' = ui p).
Proof.
  split.
  - intros Hs. unfold generateInviteCode. by rewrite Hs.
  - intros g Hs Hfail. cbv zeta. unfold generateInviteCode. rewrite Hs.
    unfold SDK.updateGroup, call. simpl.
    destruct (reachable (backend p)) eqn:Hup; [|done].
    destruct Hfail as [?|Hmissing]; [done|].
    destruct (existsb _ _) eqn:Hex; [|done].
    apply existsb_exists in Hex as (d & Hd & Hid). destruct Hmissing.
    apply bool_decide_eq_true in Hid. rewrite <- Hid.
    apply list_elem_of_fmap_2. by apply list_elem_of_In.
Qed.

Lemma generateInviteCode_failure_witness :
  let p := with_ui (setSelectedGroup (Some grpA)) (mounted (server [grpB] [])) in
  generateInviteCode "0.4fzyo82mvyr" (mounted (server [grpB] [])) = mounted (server [grpB] []) /\
  groups_col (backend (generateInviteCode "0.4fzyo82mvyr" p)) = [grpB] /\
  inviteCode (ui (generateInviteCode "0.4fzyo82mvyr" p)) = "".
Proof.
  cbv zeta. split.
  - by apply (proj1 (generateInviteCode_failure "0.4fzyo82mvyr"
                       (mounted (server [grpB] [])))).
  - pose proof (proj2 (generateInviteCode_failure "0.4fzyo82mvyr"
                  (with_ui (setSelectedGroup (Some grpA)) (mounted (server [grpB] []))))
                  grpA eq_refl) as H.
    destruct H as [Hg Hu].
    + right. apply (bool_decide_unpack _). by vm_compute.
    + split; [exact Hg|]. by rewrite Hu.
Defined.

Lemma upper_char_idemp c : JS.upper_char (JS.upper_char c) = JS.upper_char c.
Proof. destruct c as [[] [] [] [] [] [] [] []]; by vm_compute. Qed.

Lemma upper_alnum_upper c : upper_alnum c = true -> JS.upper_char c = c.
Proof. destruct c as [[] [] [] [] [] [] [] []]; by vm_compute. Qed.

Lemma upper_alnum_not_space c : upper_alnum c = true -> JS.is_space c = false.
Proof. destruct c as [[] [] [] [] [] [] [] []]; by vm_compute. Qed.

Lemma toUpperCase_fixed s :
  JS.all_chars upper_alnum s = true -> JS.toUpperCase s = s.
Proof.
  induction s as [|c s IH]; simpl; [done|].
  intros [Hc Hs]%andb_true_iff.
  unfold JS.toUpperCase in *. simpl. by rewrite upper_alnum_upper, IH.
Qed.

Lemma rev_app_all t s acc :
  JS.all_chars t s = true -> JS.all_chars t acc = true ->
  JS.all_chars t (String.rev_app s acc) = true.
Proof.
  revert acc. induction s as [|c s IH]; intros acc; simpl; [done|].
  intros [Hc Hs]%andb_true_iff Hacc. apply IH; [done|]. simpl. by rewrite Hc.
Qed.

Lemma rev_app_rev_app s a b :
  String.rev_app (String.rev_app s a) b = String.rev_app a (String.append s b).
Proof.
  revert a b. induction s as [|c s IH]; intros a b; simpl; [done|].
  by rewrite IH.
Qed.

Lemma trimStart_fixed s :
  JS.all_chars (fun c => negb (JS.is_space c)) s = true -> JS.trimStart s = s.
Proof.
  destruct s as [|c s]; simpl; [done|].
  intros [Hc _]%andb_true_iff. by destruct (JS.is_space c).
Qed.

Lemma trim_fixed s :
  JS.all_chars (fun c => negb (JS.is_space c)) s = true -> JS.trim s = s.
Proof.
  intros Hs. unfold JS.trim, JS.trimEnd. rewrite (trimStart_fixed s Hs).
  rewrite trimStart_fixed by (by apply rev_app_all).
  unfold String.rev. rewrite rev_app_rev_app. simpl.
  clear Hs. induction s as [|c s IH]; [done|].
  change (String.append (String c s) "") with (String c (String.append s "")).
  by rewrite IH.
Qed.

Lemma all_chars_impl (t u : ascii -> bool) s :
  (forall c, t c = true -> u c = true) ->
  JS.all_chars t s = true -> JS.all_chars u s = true.
Proof.
  intros Htu. induction s as [|c s IH]; simpl; [done|].
  intros [Hc Hs]%andb_true_iff. by rewrite (Htu c Hc), IH.
Qed.

(** The code shown in the invite dialog is taken as it is by the lookup
    of the join: trimming and upper-casing leave it unchanged. *)
Lemma invite_code_verbatim rnd :
  JS.all_chars base36_digit (JS.substring 2 10 rnd) = true ->
  JS.toUpperCase (JS.trim (inviteCodeOf rnd)) = inviteCodeOf rnd.
Proof.
  intros Hchars%inviteCodeOf_chars.
  rewrite trim_fixed.
  - by apply toUpperCase_fixed.
  - eapply all_chars_impl; [|exact Hchars].
    intros c Hc. by rewrite upper_alnum_not_space.
Qed.

(** [handleJoinGroup] once its guard is passed. *)
Lemma handleJoinGroup_run code p uid :
  currentUser (backend p) = Some uid ->
  JS.trim code <> "" ->
  handleJoinGroup code p
  = with_ui (setJoining false)
      (match snd (joinGroup uid code (backend p)) with
       | inr _ => with_ui (fun s => setInviteCode "" (setShowJoinModal false s))
                    (with_backend (fst (joinGroup uid code (backend p)))
                       (with_ui (setJoining true) p))
       | inl e => alert (exn_message e)
                    (with_backend (fst (joinGroup uid code (backend p)))
                       (with_ui (setJoining true) p))
       end).
Proof.
  intros Huser Hcode%truthy_true. unfold handleJoinGroup.
  rewrite Huser, Hcode. simpl.
  by destruct (joinGroup uid code (backend p)) as [b [e|[]]].
Qed.

(** X12. From invitation to membership. A code is generated for the
    selected group and no other group stores that code; a user who is not
    a member of the group then enters the code as shown. The join goes
    through without an error, and the stored groups are those from before
    the invitation with the new code and the new member put on the
    invited group, and nothing else changed. *)
Theorem invite_then_join rnd p g uid :
  selectedGroup (ui p) = Some g ->
  reachable (backend p) = true ->
  grp_id g ∈ grp_id <$> groups_col (backend p) ->
  JS.all_chars base36_digit (JS.substring 2 10 rnd) = true ->
  inviteCodeOf rnd <> "" ->
  (forall d, d ∈ groups_col (backend p) -> grp_id d <> grp_id g ->
     grp_inviteCode d <> Some (inviteCodeOf rnd)) ->
  (forall d, d ∈ groups_col (backend p) -> grp_id d = grp_id g ->
     uid ∉ grp_members d) ->
  let p1 := generateInviteCode rnd p in
  let joiner := with_backend (set_currentUser (Some uid) (backend p1)) p1 in
  let p2 := handleJoinGroup (inviteCode (ui p1)) joiner in
  alerts p2 = alerts p /\
  groups_col (backend p2)
  = map (fun d => if bool_decide (grp_id d = grp_id g)
                  then addMember uid (setCode (inviteCodeOf rnd) d) else d)
        (groups_col (backend p)).
Proof.
  intros Hsel Hup Hin Hchars Hne Hothers Hnew p1 joiner p2.
  set (code := inviteCodeOf rnd) in *.
  set (gs1 := map (fun d => if bool_decide (grp_id d = grp_id g)
                            then setCode code d else d) (groups_col (backend p))).
  assert (p1 = with_ui (fun s => setShowInviteModal true (setInviteCode code s))
                 (with_backend
                    (set_groups_col gs1 (record_call (CUpdateGroup (grp_id g)) (backend p)))
                    p)) as Hp1
    by (by apply generateInviteCode_stored).
  assert (inviteCode (ui p1) = code) as Hshown by (by rewrite Hp1).
  assert (groups_col (backend joiner) = gs1) as Hgs1 by (unfold joiner; by rewrite Hp1).
  assert (reachable (backend joiner) = true) as Hup1 by (unfold joiner; by rewrite Hp1).
  assert (alerts joiner = alerts p) as Hal by (unfold joiner; by rewrite Hp1).
  assert (forall h, h ∈ resolves code (backend joiner) ->
            grp_id h = grp_id g /\ uid ∉ grp_members h) as Hres.
  { intros h [Hh Hc]%resolves_elem_of. rewrite Hgs1 in Hh.
    unfold gs1 in Hh. apply list_elem_of_In, in_map_iff in Hh as (d & Hd & Hdin).
    apply list_elem_of_In in Hdin.
    case_bool_decide as Hid; subst h.
    - split; [done|]. simpl. by apply Hnew.
    - by destruct (Hothers d Hdin Hid). }
  assert (resolves code (backend joiner) <> []) as Hsome.
  { apply list_elem_of_fmap in Hin as (d & Hid & Hd).
    intros Hnil. apply resolves_nil with (g := setCode code d) in Hnil; [done|].
    rewrite Hgs1. unfold gs1. apply list_elem_of_In, in_map_iff. exists d.
    split; [|by apply list_elem_of_In]. by rewrite bool_decide_eq_true_2. }
  assert (currentUser (backend joiner) = Some uid) as Hcu by done.
  unfold p2. rewrite Hshown. clearbody joiner.
  rewrite (handleJoinGroup_run code joiner uid); [|done|].
  2:{ rewrite trim_fixed; [done|]. eapply all_chars_impl; [|by apply inviteCodeOf_chars].
      intros c Hc. by rewrite upper_alnum_not_space. }
  rewrite joinGroup_run by done. cbv zeta.
  assert (JS.toUpperCase (JS.trim code) = code) as -> by (by apply invite_code_verbatim).
  destruct (resolves code (backend joiner)) as [|h rest] eqn:Hr; [done|].
  destruct (Hres h) as [Hid Hout]; [by left|].
  rewrite bool_decide_eq_false_2 by done.
  rewrite updateGroup_existing.
  - simpl. split; [done|]. rewrite Hgs1. unfold gs1. rewrite map_map.
    apply map_ext. intros d. rewrite Hid.
    destruct (decide (grp_id d = grp_id g)) as [Hd|Hd].
    + rewrite (bool_decide_eq_true_2 (grp_id d = grp_id g)) by done.
      simpl. by rewrite bool_decide_eq_true_2.
    + rewrite (bool_decide_eq_false_2 (grp_id d = grp_id g)) by done.
      by rewrite bool_decide_eq_false_2.
  - done.
  - simpl. apply list_elem_of_fmap_2.
    apply (resolves_elem_of code). rewrite Hr. by left.
Qed.

Lemma invite_then_join_witness :
  let p := with_ui (setSelectedGroup (Some grpA)) (mounted (server [grpA; grpB] [])) in
  let p1 := generateInviteCode "0.4fzyo82mvyr" p in
  let joiner := with_backend (set_currentUser (Some "u2") (backend p1)) p1 in
  let p2 := handleJoinGroup (inviteCode (ui p1)) joiner in
  alerts p2 = [] /\
  groups_col (backend p2)
  = [mkGroup "a" "Alpha" "" "u1" 0 ["u1"; "u2"] (Some "4FZYO82M"); grpB].
Proof.
  cbv zeta.
  pose proof (invite_then_join "0.4fzyo82mvyr"
                (with_ui (setSelectedGroup (Some grpA)) (mounted (server [grpA; grpB] [])))
                grpA "u2" eq_refl eq_refl) as H.
  destruct H as [Ha Hg].
  - by left.
  - by vm_compute.
  - by vm_compute.
  - intros d Hd Hne. apply elem_of_cons in Hd as [->|Hd]; [done|].
    apply list_elem_of_singleton in Hd as ->. by vm_compute.
  - intros d Hd Heq. apply elem_of_cons in Hd as [->|Hd].
    + apply (bool_decide_unpack _). by vm_compute.
    + apply list_elem_of_singleton in Hd as ->. by vm_compute in Heq.
  - split; [exact Ha|exact Hg].
Defined.

(** What any run of [handleJoinGroup] does to the stored groups: nothing,
    or one user added to the documents of one group. *)
Lemma handleJoinGroup_groups code p :
  groups_col (backend (handleJoinGroup code p)) = groups_col (backend p)
  \/ exists uid gid,
       currentUser (backend p) = Some uid /\
       groups_col (backend (handleJoinGroup code p))
       = map (fun d => if bool_decide (grp_id d = gid) then addMember uid d else d)
             (groups_col (backend p)).
Proof.
  unfold handleJoinGroup.
  destruct (currentUser (backend p)) as [uid|] eqn:Hu; [|by left].
  destruct (JS.truthy (JS.trim code)); [|by left].
  unfold joinGroup, bind, SDK.getGroupsByCode, call. simpl.
  destruct (reachable (backend p)) eqn:Hup; [|by left].
  destruct (sort_by _ _) as [|h rest]; [by left|].
  case_bool_decide; [by left|].
  unfold SDK.updateGroup, call. simpl. rewrite Hup.
  destruct (existsb _ _); [|by left].
  right. by exists uid, (grp_id h).
Qed.

(** X13. Joining never takes anything away. Whatever code is entered and
    however the join ends, every stored group is still stored afterwards
    under the same id, with the same name and invite code and with at
    least the members it had; and if no member list held a user twice
    before, none does afterwards. *)
Theorem handleJoinGroup_keeps_groups code p :
  let p' := handleJoinGroup code p in
  (forall d, d ∈ groups_col (backend p) ->
     exists d', d' ∈ groups_col (backend p') /\
       grp_id d' = grp_id d /\ grp_name d' = grp_name d /\
       grp_inviteCode d' = grp_inviteCode d /\
       grp_members d ⊆ grp_members d') /\
  length (groups_col (backend p')) = length (groups_col (backend p)) /\
  (Forall (fun d => NoDup (grp_members d)) (groups_col (backend p)) ->
   Forall (fun d => NoDup (grp_members d)) (groups_col (backend p'))).
Proof.
  cbv zeta.
  destruct (handleJoinGroup_groups code p) as [->|(uid & gid & _ & ->)].
  - split_and!; [|done..]. intros d Hd. by exists d.
  - split_and!.
    + intros d Hd.
      exists (if bool_decide (grp_id d = gid) then addMember uid d else d).
      split; [apply list_elem_of_In, in_map_iff; exists d;
              split; [done|by apply list_elem_of_In]|].
      case_bool_decide; [|done]. simpl. split_and!; try done.
      intros x Hx. apply arrayUnion_elem_of. by right.
    + by rewrite length_map.
    + intros Hall. apply Forall_forall. intros d' Hd'.
      apply list_elem_of_In, in_map_iff in Hd' as (d & <- & Hd).
      apply list_elem_of_In in Hd. eapply Forall_forall in Hall; [|done].
      case_bool_decide; [|done]. simpl. by apply arrayUnion_NoDup.
Qed.

Lemma handleJoinGroup_keeps_groups_witness :
  let g := setCode "ABC12345" grpA in
  let p := mounted (set_currentUser (Some "u2") (server [g; grpB] [])) in
  Forall (fun d => NoDup (grp_members d))
    (groups_col (backend (handleJoinGroup "abc12345" p))) /\
  length (groups_col (backend (handleJoinGroup "abc12345" p))) = 2%nat.
Proof.
  cbv zeta.
  pose proof (handleJoinGroup_keeps_groups "abc12345"
                (mounted (set_currentUser (Some "u2")
                            (server [setCode "ABC12345" grpA; grpB] []))))
    as (_ & Hlen & Hnd).
  split; [|exact Hlen].
  apply Hnd. apply (bool_decide_unpack _). by vm_compute.
Defined.

(** X14. Joining is safe to repeat. After a join that went through,
    entering the same code again is answered with "You are already a
    member of this group" and changes no group. *)
Theorem handleJoinGroup_twice code p uid g rest :
  currentUser (backend p) = Some uid ->
  JS.trim code <> "" ->
  reachable (backend p) = true ->
  resolves (JS.toUpperCase (JS.trim code)) (backend p) = g :: rest ->
  uid ∉ grp_members g ->
  let p1 := handleJoinGroup code p in
  let p2 := handleJoinGroup code p1 in
  alerts p1 = alerts p /\
  alerts p2 = alerts p ++ ["You are already a member of this group"] /\
  groups_col (backend p2) = groups_col (backend p1).
Proof.
  intros Hu Hcode Hup Hr Hout p1 p2.
  set (norm := JS.toUpperCase (JS.trim code)) in *.
  set (f := fun d => if bool_decide (grp_id d = grp_id g) then addMember uid d else d).
  assert (g ∈ groups_col (backend p)) as Hg.
  { apply (resolves_elem_of norm). rewrite Hr. by left. }
  assert (alerts p1 = alerts p /\ currentUser (backend p1) = Some uid /\
          reachable (backend p1) = true /\
          groups_col (backend p1) = map f (groups_col (backend p))) as (Ha1 & Hu1 & Hup1 & Hg1).
  { unfold p1. rewrite (handleJoinGroup_run code p uid) by done.
    rewrite joinGroup_run by done. cbv zeta. fold norm. rewrite Hr.
    rewrite bool_decide_eq_false_2 by done.
    rewrite updateGroup_existing; [|done|by apply list_elem_of_fmap_2].
    simpl. by rewrite Hu, Hup. }
  assert (resolves norm (backend p1) = f g :: map f rest) as Hr1.
  { unfold resolves. rewrite Hg1.
    rewrite filter_map_commute, sort_by_map.
    - unfold resolves in Hr. by rewrite Hr.
    - intros x y. unfold SDK.by_name, f.
      by destruct (bool_decide (grp_id x = grp_id g)),
                  (bool_decide (grp_id y = grp_id g)).
    - intros x. unfold SDK.has_code, f.
      by destruct (bool_decide (grp_id x = grp_id g)). }
  split; [done|].
  unfold p2. rewrite (handleJoinGroup_run code p1 uid) by done.
  rewrite joinGroup_run by done. cbv zeta. fold norm. rewrite Hr1.
  rewrite bool_decide_eq_true_2.
  - simpl. by rewrite Ha1.
  - unfold f. rewrite bool_decide_eq_true_2 by done. simpl.
    apply arrayUnion_elem_of. by left.
Qed.

Lemma handleJoinGroup_twice_witness :
  let g := setCode "ABC12345" grpA in
  let p := mounted (set_currentUser (Some "u2") (server [g] [])) in
  alerts (handleJoinGroup "ABC12345" (handleJoinGroup "ABC12345" p))
    = ["You are already a member of this group"] /\
  groups_col (backend (handleJoinGroup "ABC12345" (handleJoinGroup "ABC12345" p)))
    = groups_col (backend (handleJoinGroup "ABC12345" p)).
Proof.
  cbv zeta.
  pose proof (handleJoinGroup_twice "ABC12345"
                (mounted (set_currentUser (Some "u2")
                            (server [setCode "ABC12345" grpA] [])))
                "u2" (setCode "ABC12345" grpA) []
                eq_refl ltac:(by vm_compute) eq_refl eq_refl
                ltac:(apply (bool_decide_unpack _); by vm_compute))
    as (_ & Ha & Hg).
  split; [exact Ha|exact Hg].
Defined.



End GroupsMore.

(** ** More on signing up and signing in *)

Section AuthMore.
Import AuthPage Spec Sample.





(** X18. Signing in, on a reachable backend. An unknown email and a wrong
    password are answered with the same message, "Invalid email or
    password.", and change neither the signed-in user nor any profile.
    With the right password the user is signed in, the profile document
    gets the time of this login, and the page goes to [/chats] when the
    account's email is verified and to [/verify-email] when it is not.
    When the profile document is missing the user is signed in all the
    same, but the page shows the error of the failed update and stays. *)
Theorem handleAuth_sign_in newUid now p :
  isSignUp (ui p) = false ->
  resetMode (ui p) = false ->
  reachable (backend p) = true ->
  let p' := handleAuth newUid now p in
  let found := List.find (SDK.has_email (email (ui p))) (accounts (backend p)) in
  (found = None \/ (exists a, found = Some a /\ acc_password a <> password (ui p)) ->
   error (ui p') = "Invalid email or password." /\
   location p' = location p /\
   currentUser (backend p') = currentUser (backend p) /\
   users (backend p') = users (backend p)) /\
  (forall a, found = Some a -> acc_password a = password (ui p) ->
   currentUser (backend p') = Some (acc_uid a) /\
   match users (backend p) !! acc_uid a with
   | Some u =>
       error (ui p') = "" /\
       location p' = Some (if acc_emailVerified a then "/chats" else "/verify-email") /\
       users (backend p')
       = <[acc_uid a := mkUser (usr_email u) (usr_username u) (usr_emailVerified u)
                          (usr_createdAt u) (usr_updatedAt u) now (usr_verifiedAt u)]>
           (users (backend p))
   | None =>
       error (ui p') <> "" /\
       location p' = location p /\
       users (backend p') = users (backend p)
   end).
Proof.
  intros Hsign Hreset Hup. cbv zeta.
  unfold handleAuth. rewrite Hreset, Hsign.
  unfold signIn, bind, SDK.signInWithEmailAndPassword, SDK.updateUserLastLogin, call.
  simpl. rewrite Hup. split.
  - intros [Hnone|(a & Hsome & Hpw)].
    + by rewrite Hnone.
    + rewrite Hsome. by rewrite bool_decide_eq_false_2.
  - intros a Hsome Hpw. rewrite Hsome. rewrite bool_decide_eq_true_2 by done.
    simpl. rewrite Hup.
    destruct (users (backend p) !! acc_uid a) as [u|]; simpl; [|done].
    by destruct (acc_emailVerified a).
Qed.

Lemma handleAuth_sign_in_witness :
  let b := set_users (<[ "uid0" := mkUser "alice@example.org" "Alice" false 1 1 1 None ]> ∅)
             (set_accounts [mkAccount "uid0" "alice@example.org" "secret1" None true]
                empty_backend) in
  let form pw := mkState false "alice@example.org" pw "" "" "" false "" false in
  error (ui (handleAuth "x" 9 (mkPage (form "wrong") b None))) = "Invalid email or password." /\
  location (handleAuth "x" 9 (mkPage (form "secret1") b None)) = Some "/chats".
Proof.
  cbv zeta. split.
  - refine (proj1 (proj1 (handleAuth_sign_in "x" 9
              (mkPage (mkState false "alice@example.org" "wrong" "" "" "" false "" false)
                 (set_users (<[ "uid0" := mkUser "alice@example.org" "Alice" false 1 1 1 None ]> ∅)
                    (set_accounts [mkAccount "uid0" "alice@example.org" "secret1" None true]
                       empty_backend)) None)
              eq_refl eq_refl eq_refl) _)).
    right. eexists. split; [reflexivity|]. by vm_compute.
  - pose proof (proj2 (handleAuth_sign_in "x" 9
              (mkPage (mkState false "alice@example.org" "secret1" "" "" "" false "" false)
                 (set_users (<[ "uid0" := mkUser "alice@example.org" "Alice" false 1 1 1 None ]> ∅)
                    (set_accounts [mkAccount "uid0" "alice@example.org" "secret1" None true]
                       empty_backend)) None)
              eq_refl eq_refl eq_refl)
              (mkAccount "uid0" "alice@example.org" "secret1" None true)
              eq_refl eq_refl) as [_ H].
    exact (proj1 (proj2 H)).
Defined.

(** X19. In reset mode the handler only asks for the reset email: no
    account is created, nobody is signed in, no document is written and
    the page does not navigate, whatever the rest of the form says. The
    confirmation "Password reset email sent! Check your inbox." is shown
    exactly when the backend could be reached. *)
Theorem handleAuth_reset_mode newUid now p :
  resetMode (ui p) = true ->
  let p' := handleAuth newUid now p in
  accounts (backend p') = accounts (backend p) /\
  currentUser (backend p') = currentUser (backend p) /\
  users (backend p') = users (backend p) /\
  usernames (backend p') = usernames (backend p) /\
  calls (backend p') = calls (backend p) ++ [CSendPasswordReset (email (ui p))] /\
  location p' = location p /\
  (message (ui p') = "Password reset email sent! Check your inbox."
   <-> reachable (backend p) = true).
Proof.
  intros Hreset. cbv zeta. unfold handleAuth. rewrite Hreset.
  unfold handlePasswordReset, SDK.sendPasswordResetEmail, call. simpl.
  destruct (reachable (backend p)); simpl; by split_and!.
Qed.

Lemma handleAuth_reset_mode_witness :
  let p := mkPage (mkState true "alice@example.org" "secret1" "secret1" "Alice" ""
                     true "" false) empty_backend None in
  accounts (backend (handleAuth "uid1" 9 p)) = [] /\
  calls (backend (handleAuth "uid1" 9 p)) = [CSendPasswordReset "alice@example.org"].
Proof.
  cbv zeta.
  pose proof (handleAuth_reset_mode "uid1" 9
                (mkPage (mkState true "alice@example.org" "secret1" "secret1" "Alice" ""
                           true "" false) empty_backend None) eq_refl)
    as (Ha & _ & _ & _ & Hc & _).
  split; [exact Ha|exact Hc].
Defined.

(** X20. However it ends, the handler leaves the busy flag cleared and
    the form as it was filled in: mode, email, passwords and username are
    never changed by it. *)
Theorem handleAuth_keeps_form newUid now p :
  let p' := handleAuth newUid now p in
  loading (ui p') = false /\
  isSignUp (ui p') = isSignUp (ui p) /\
  resetMode (ui p') = resetMode (ui p) /\
  email (ui p') = email (ui p) /\
  password (ui p') = password (ui p) /\
  confirmPassword (ui p') = confirmPassword (ui p) /\
  username (ui p') = username (ui p).
Proof.
  cbv zeta. unfold handleAuth.
  destruct (resetMode (ui p)) eqn:Hr.
  - unfold handlePasswordReset.
    by destruct (SDK.sendPasswordResetEmail _ _) as [b [e|u]].
  - destruct (isSignUp (ui p)) eqn:Hs.
    + destruct (validate (ui p)); [done|].
      by destruct (signUp _ _ _ _) as [b [e|[m|]]].
    + destruct (signIn _ _ _) as [b [e|a]]; [done|].
      by destruct (acc_emailVerified a).
Qed.

End AuthMore.

(** ** The verification page *)

Section VerifyMore.
Import VerifyEmail.

(** While the countdown runs, each second takes one off; the second that
    brings it to 0 allows resending again and rewinds it to 60. *)
Lemma second_passes_running s :
  canResend s = false -> 1 < countdown s ->
  second_passes s = setCountdown (countdown s - 1) s.
Proof.
  intros Hc Hn. unfold second_passes, countdownEffect. rewrite Hc. simpl.
  rewrite Hc. simpl.
  rewrite (proj2 (Z.ltb_lt 0 (countdown s))) by lia.
  by rewrite (proj2 (Z.ltb_lt 0 (countdown s - 1))) by lia.
Qed.

Lemma second_passes_last s :
  canResend s = false -> countdown s = 1 ->
  second_passes s = setCountdown 60 (setCanResend true s).
Proof.
  intros Hc Hn. destruct s as [e m l c r]. simpl in *. subst. done.
Qed.

(** X21. The pause between two verification emails. Once resending has
    been switched off with the counter at [c] seconds, it stays off for
    the next [c - 1] seconds while the counter runs down one by one, and
    after exactly [c] seconds it is on again with the counter back at 60;
    from then on the passing of time changes nothing. *)
Theorem resend_cooldown s (c : nat) :
  canResend s = false ->
  countdown s = Z.of_nat c ->
  (0 < c)%nat ->
  (forall n, (n < c)%nat ->
     canResend (Nat.iter n second_passes s) = false /\
     countdown (Nat.iter n second_passes s) = Z.of_nat c - Z.of_nat n) /\
  canResend (Nat.iter c second_passes s) = true /\
  countdown (Nat.iter c second_passes s) = 60 /\
  second_passes (Nat.iter c second_passes s) = Nat.iter c second_passes s.
Proof.
  intros Hoff Hc Hpos.
  assert (forall n, (n < c)%nat ->
            Nat.iter n second_passes s = setCountdown (Z.of_nat c - Z.of_nat n) s)
    as Hrun.
  { induction n as [|n IH]; intros Hn.
    - simpl. rewrite Z.sub_0_r, <- Hc. by destruct s.
    - simpl. rewrite IH by lia.
      rewrite second_passes_running; simpl; [|done|lia].
      unfold setCountdown. simpl. f_equal. lia. }
  split; [|].
  - intros n Hn. rewrite Hrun by done. by simpl.
  - destruct c as [|c]; [lia|].
    assert (Nat.iter (S c) second_passes s = setCountdown 60 (setCanResend true s))
      as Hend.
    { simpl. rewrite Hrun by lia.
      rewrite second_passes_last; simpl; [done|done|lia]. }
    rewrite Hend. split_and!; done.
Qed.

Lemma resend_cooldown_witness :
  let s := setCanResend false initial in
  canResend (Nat.iter 59 second_passes s) = false /\
  canResend (Nat.iter 60 second_passes s) = true /\
  countdown (Nat.iter 60 second_passes s) = 60.
Proof.
  cbv zeta.
  pose proof (resend_cooldown (setCanResend false initial) 60 eq_refl eq_refl
                ltac:(lia)) as (Hrun & Hon & Hback & _).
  split; [exact (proj1 (Hrun 59%nat ltac:(lia)))|].
  split; [exact Hon|exact Hback].
Defined.

(** X22. Resending the verification email. It is sent only for a
    signed-in user whose email the client does not hold as verified;
    otherwise no call is made and nothing but the busy flag is touched.
    When it was sent, resending is switched off and the confirmation is
    shown; when the backend could not be reached, the error is shown and
    resending stays allowed. *)
Theorem handleResendVerification_spec p :
  let p' := handleResendVerification p in
  loading (ui p') = false /\
  (currentUser (backend p) = None \/ verified p = true ->
   backend p' = backend p /\ canResend (ui p') = canResend (ui p)
   /\ message (ui p') = message (ui p) /\ error (ui p') = error (ui p)) /\
  (forall uid, currentUser (backend p) = Some uid -> verified p = false ->
   calls (backend p') = calls (backend p) ++ [CSendVerification uid] /\
   if reachable (backend p) then
     canResend (ui p') = false /\ error (ui p') = "" /\
     message (ui p') = "Verification email resent! Please check your inbox."
   else
     canResend (ui p') = canResend (ui p) /\
     error (ui p') = "Error sending verification email. Please try again later.").
Proof.
  cbv zeta. unfold handleResendVerification, SDK.sendEmailVerification, call.
  simpl.
  destruct (currentUser (backend p)) as [u|] eqn:Hu, (verified p) eqn:Hv,
    (reachable (backend p)) eqn:Hup; simpl;
    (split_and!; [done| |]);
    try (intros [?|?]; by simplify_eq);
    try (by intros ? ? ?);
    try (by intros ? [= <-] _).
Qed.

Lemma handleResendVerification_spec_witness :
  let b := mkBackend true [mkAccount "uid0" "alice@example.org" "secret1" None false]
             (Some "uid0") ∅ ∅ [] [] [] in
  let p := mkPage initial b false None None true in
  canResend (ui (handleResendVerification p)) = false /\
  backend (handleResendVerification (mkPage initial b true None None true)) = b.
Proof.
  cbv zeta. split.
  - pose proof (proj2 (proj2 (handleResendVerification_spec
                  (mkPage initial
                     (mkBackend true [mkAccount "uid0" "alice@example.org" "secret1" None false]
                        (Some "uid0") ∅ ∅ [] [] []) false None None true)))
                  "uid0" eq_refl eq_refl) as [_ H].
    exact (proj1 H).
  - refine (proj1 (proj1 (proj2 (handleResendVerification_spec
              (mkPage initial
                 (mkBackend true [mkAccount "uid0" "alice@example.org" "secret1" None false]
                    (Some "uid0") ∅ ∅ [] [] []) true None None true))) _)).
    by right.
Defined.

(** X23. Checking by hand, for a signed-in user whose account exists, on
    a reachable backend. If the provider reports the email as verified,
    the page says so, marks the profile document as verified at the time
    of the check, and arms the delayed move to [/chats]; a missing profile
    document does not hold the move back. If the provider reports it as
    not verified, the page says so, no document is written and no move is
    armed. In both cases the page itself has not navigated yet. *)
Theorem handleManualRefresh_spec now p uid a :
  currentUser (backend p) = Some uid ->
  reachable (backend p) = true ->
  List.find (fun a => bool_decide (acc_uid a = uid)) (accounts (backend p)) = Some a ->
  let p' := handleManualRefresh now p in
  loading (ui p') = false /\
  location p' = location p /\
  verified p' = acc_emailVerified a /\
  if acc_emailVerified a then
    message (ui p') = "Email verified! Redirecting..." /\
    redirect p' = Some "/chats" /\
    users (backend p')
    = match users (backend p) !! uid with
      | Some u => <[uid := mkUser (usr_email u) (usr_username u) true
                             (usr_createdAt u) (usr_updatedAt u)
                             (usr_lastLoginAt u) (Some now)]> (users (backend p))
      | None => users (backend p)
      end
  else
    message (ui p') = "Email not verified yet. Please check your inbox." /\
    redirect p' = redirect p /\
    backend p' = backend p.
Proof.
  intros Hu Hup Ha. cbv zeta. unfold handleManualRefresh, reload. simpl.
  rewrite Hu, Hup, Ha.
  destruct (acc_emailVerified a); simpl; [|done].
  unfold updateUserVerificationStatus, updateUserVerified, call. simpl.
  rewrite Hup. by destruct (users (backend p) !! uid).
Qed.

Lemma handleManualRefresh_spec_witness :
  let b v := mkBackend true [mkAccount "uid0" "alice@example.org" "secret1" None v]
               (Some "uid0")
               (<[ "uid0" := mkUser "alice@example.org" "Alice" false 1 1 1 None ]> ∅)
               ∅ [] [] [] in
  redirect (handleManualRefresh 9 (mkPage initial (b true) false None None true))
    = Some "/chats" /\
  backend (handleManualRefresh 9 (mkPage initial (b false) false None None true))
    = b false.
Proof.
  cbv zeta. split.
  - pose proof (handleManualRefresh_spec 9
                  (mkPage initial
                     (mkBackend true [mkAccount "uid0" "alice@example.org" "secret1" None true]
                        (Some "uid0")
                        (<[ "uid0" := mkUser "alice@example.org" "Alice" false 1 1 1 None ]> ∅)
                        ∅ [] [] []) false None None true)
                  "uid0" (mkAccount "uid0" "alice@example.org" "secret1" None true)
                  eq_refl eq_refl eq_refl) as (_ & _ & _ & H).
    exact (proj1 (proj2 H)).
  - pose proof (handleManualRefresh_spec 9
                  (mkPage initial
                     (mkBackend true [mkAccount "uid0" "alice@example.org" "secret1" None false]
                        (Some "uid0")
                        (<[ "uid0" := mkUser "alice@example.org" "Alice" false 1 1 1 None ]> ∅)
                        ∅ [] [] []) false None None true)
                  "uid0" (mkAccount "uid0" "alice@example.org" "secret1" None false)
                  eq_refl eq_refl eq_refl) as (_ & _ & _ & H).
    exact (proj2 (proj2 H)).
Defined.

(** X24. The periodic check is silent until the email is verified: as
    long as the provider reports it as not verified, or cannot be
    reached, the page is left exactly as it was, apart from the flag the
    client holds. Once the provider reports it as verified, the check
    stops its own interval and arms the move to [/chats], which the
    timeout then carries out. *)
Theorem checkVerification_spec now p uid :
  currentUser (backend p) = Some uid ->
  let p' := checkVerification now p in
  (reachable (backend p) = false -> p' = p) /\
  (forall a,
     reachable (backend p) = true ->
     List.find (fun a => bool_decide (acc_uid a = uid)) (accounts (backend p)) = Some a ->
     if acc_emailVerified a then
       polling p' = false /\ redirect p' = Some "/chats" /\
       location p' = location p /\
       location (timeout_fires p') = Some "/chats" /\
       redirect (timeout_fires p') = None
     else p' = with_verified false p).
Proof.
  intros Hu. cbv zeta. unfold checkVerification, reload. rewrite Hu. split.
  - intros Hdown. rewrite Hdown. by destruct p.
  - intros a Hup Ha. rewrite Hup, Ha.
    destruct (acc_emailVerified a); simpl; [done|]. by destruct p.
Qed.

Lemma checkVerification_spec_witness :
  let b v := mkBackend true [mkAccount "uid0" "alice@example.org" "secret1" None v]
               (Some "uid0") ∅ ∅ [] [] [] in
  location (timeout_fires (checkVerification 9
              (mkPage initial (b true) false None None true))) = Some "/chats" /\
  checkVerification 9 (mkPage initial (b false) false None None true)
    = mkPage initial (b false) false None None true.
Proof.
  cbv zeta. split.
  - pose proof (proj2 (checkVerification_spec 9
                  (mkPage initial
                     (mkBackend true [mkAccount "uid0" "alice@example.org" "secret1" None true]
                        (Some "uid0") ∅ ∅ [] [] []) false None None true)
                  "uid0" eq_refl)
                  (mkAccount "uid0" "alice@example.org" "secret1" None true)
                  eq_refl eq_refl) as H.
    exact (proj1 (proj2 (proj2 (proj2 H)))).
  - exact (proj2 (checkVerification_spec 9
                  (mkPage initial
                     (mkBackend true [mkAccount "uid0" "alice@example.org" "secret1" None false]
                        (Some "uid0") ∅ ∅ [] [] []) false None None true)
                  "uid0" eq_refl)
                  (mkAccount "uid0" "alice@example.org" "secret1" None false)
                  eq_refl eq_refl).
Defined.

End VerifyMore.

(** ** The routes *)

Section Routes.
Import App.

(** X25. The guarded routes lead every visitor to the page for their
    state and never send them round in circles: from [/auth],
    [/verify-email] or [/chats], after at most two redirects a visitor who
    is not signed in sees the sign-in page, a signed-in user with an
    unverified email the verification page, and a verified user the
    chats. *)
Theorem guarded_routes_settle path user :
  path ∈ ["/auth"; "/verify-email"; "/chats"] ->
  settle 2 path user
  = Some match user with
         | None => ("/auth", AuthScreen)
         | Some false => ("/verify-email", VerifyScreen)
         | Some true => ("/chats", ChatsScreen)
         end.
Proof.
  intros Hp. repeat (apply elem_of_cons in Hp as [->|Hp]);
    [| | |by apply elem_of_nil in Hp];
    by destruct user as [[]|].
Qed.

Lemma guarded_routes_settle_witness :
  settle 2 "/auth" (Some false) = Some ("/verify-email", VerifyScreen).
Proof.
  apply (guarded_routes_settle "/auth" (Some false)). by left.
Defined.



End Routes.
